(** * bank_account_PDF_to_CSV: a shallow embedding and its properties

    The development follows [bank_account_PDF_to_CSV.py]: the line parser
    ([parse_lines]), the rule store ([load_reference_db], [save_reference],
    [load_declarations]), the fuzzy shortlist ([get_fuzzy_declarations]) and
    the enricher ([apply_split_rule], [ask_user_for_split],
    [enrich_bookings]).

    Modelling conventions.
    - A Python [str] is a [string]; a character is an [ascii], read as the
      code point of the same number, so the alphabet is the code points
      0..255.  Every character class below ([isspace], [isdigit], [lower],
      the regex class [\d]) is the restriction of Python's class to that
      alphabet.
    - A [dict] read from or written to the rule document is an association
      list in insertion order, without duplicate keys.
    - The file system is a finite map from paths to file contents; the
      console input is the list of the lines still to be read.  Console
      output ([print]) has no influence on any value and is left out.
    - A Python exception ends the run; the model returns it as a value.
    - Text that leaves the alphabet is followed where the script can fail
      on it: a text with a lone surrogate handed to [save_reference], and
      a rule document that is JSON but no flat mapping of texts over the
      alphabet ([OutsideModel]). *)

From Stdlib Require Import String Ascii ZArith QArith Lia List Bool Sorted.
From stdpp Require Import base strings list gmap.

Open Scope string_scope.
Open Scope nat_scope.
Open Scope list_scope.

(** ** Python string primitives *)

Module PyStr.

Definition code (c : ascii) : N := N_of_ascii c.

Definition between (lo hi : N) (c : ascii) : bool :=
  ((lo <=? code c) && (code c <=? hi))%N.

(** [str.isspace] on one character: TAB..CR, FS..US, SPACE, NEL, NBSP. *)
Definition isspace (c : ascii) : bool :=
  between 9 13 c || between 28 32 c || (code c =? 133)%N || (code c =? 160)%N.

(** The decimal digits, the class [\d] and the digits [int] accepts. *)
Definition isdecimal (c : ascii) : bool := between 48 57 c.

(** [str.isdigit] on one character: the decimal digits and the
    superscripts two, three and one. *)
Definition isdigit_char (c : ascii) : bool :=
  isdecimal c || (code c =? 178)%N || (code c =? 179)%N || (code c =? 185)%N.

(** [str.lower] on one character: A..Z and the accented capitals
    U+00C0..U+00DE without the multiplication sign. *)
Definition lower_char (c : ascii) : ascii :=
  if between 65 90 c || (between 192 222 c && negb (code c =? 215)%N)
  then ascii_of_N (code c + 32)
  else c.

Fixpoint lower (s : string) : string :=
  match s with
  | EmptyString => EmptyString
  | String c s' => String (lower_char c) (lower s')
  end.

(** [bool(s)]: a string is true when it is not empty. *)
Definition nonempty (s : string) : bool :=
  match s with EmptyString => false | String _ _ => true end.

(** [s[:n]] and [s[n:]] for [0 <= n]. *)
Fixpoint take (n : nat) (s : string) : string :=
  match n, s with
  | S n', String c s' => String c (take n' s')
  | _, _ => EmptyString
  end.

Fixpoint drop (n : nat) (s : string) : string :=
  match n, s with
  | S n', String _ s' => drop n' s'
  | _, _ => s
  end.

(** [s.lstrip(chars)], with the characters to remove as a predicate. *)
Fixpoint lstrip_by (p : ascii -> bool) (s : string) : string :=
  match s with
  | String c s' => if p c then lstrip_by p s' else s
  | EmptyString => EmptyString
  end.

Fixpoint rstrip_by (p : ascii -> bool) (s : string) : string :=
  match s with
  | String c s' =>
      match rstrip_by p s' with
      | EmptyString => if p c then EmptyString else String c EmptyString
      | r => String c r
      end
  | EmptyString => EmptyString
  end.

Definition lstrip : string -> string := lstrip_by isspace.
Definition rstrip : string -> string := rstrip_by isspace.
Definition strip (s : string) : string := lstrip (rstrip s).

Fixpoint mem (c : ascii) (cs : string) : bool :=
  match cs with
  | EmptyString => false
  | String d cs' => Ascii.eqb c d || mem c cs'
  end.

Definition lstrip_chars (cs s : string) : string :=
  lstrip_by (fun c => mem c cs) s.

(** [s.startswith(p)]. *)
Fixpoint startswith (p s : string) : bool :=
  match p, s with
  | EmptyString, _ => true
  | String a p', String b s' => Ascii.eqb a b && startswith p' s'
  | String _ _, EmptyString => false
  end.

(** [key in text]: [key] occurs at some position of [text]. *)
Fixpoint contains (key text : string) : bool :=
  startswith key text ||
  match text with
  | EmptyString => false
  | String _ text' => contains key text'
  end.

(** [text.find(p)]: the least position at which [p] occurs. *)
Fixpoint find (p text : string) : option nat :=
  if startswith p text then Some 0
  else match text with
       | EmptyString => None
       | String _ text' => option_map S (find p text')
       end.

(** [text.rfind(p)]: the greatest position at which [p] occurs, [-1]
    when there is none. *)
Fixpoint rfind_opt (p text : string) : option nat :=
  match text with
  | EmptyString => if startswith p text then Some 0 else None
  | String _ text' =>
      match rfind_opt p text' with
      | Some i => Some (S i)
      | None => if startswith p text then Some 0 else None
      end
  end.

Definition rfind (p text : string) : Z :=
  match rfind_opt p text with
  | Some i => Z.of_nat i
  | None => (-1)%Z
  end.

(** [s.replace(old, new)] for a one-character [old]. *)
Fixpoint replace (old : ascii) (new s : string) : string :=
  match s with
  | EmptyString => EmptyString
  | String c s' =>
      if Ascii.eqb c old then new +:+ replace old new s'
      else String c (replace old new s')
  end.

Fixpoint forallb (p : ascii -> bool) (s : string) : bool :=
  match s with
  | EmptyString => true
  | String c s' => p c && forallb p s'
  end.

(** [s.isdigit()]: not empty and every character a digit. *)
Definition isdigit (s : string) : bool := nonempty s && forallb isdigit_char s.

Definition digit_value (c : ascii) : Z := Z.of_N (code c - 48).

(** The digits of an [int] literal: groups of decimal digits separated by
    single underscores.  [acc] is the value read so far, [under] tells
    that the previous character was an underscore. *)
Fixpoint int_digits (acc : Z) (under : bool) (s : string) : option Z :=
  match s with
  | EmptyString => if under then None else Some acc
  | String c s' =>
      if isdecimal c then int_digits (10 * acc + digit_value c)%Z false s'
      else if Ascii.eqb c "_" then
        if under then None else int_digits acc true s'
      else None
  end.

(** The white space [int] passes over at both ends: TAB..CR and SPACE,
    and NEL and NBSP, which it takes for spaces; not FS..US. *)
Definition int_space (c : ascii) : bool :=
  between 9 13 c || (code c =? 32)%N || (code c =? 133)%N || (code c =? 160)%N.

Fixpoint count_digits (s : string) : nat :=
  match s with
  | EmptyString => 0
  | String c s' => (if isdecimal c then 1 else 0) + count_digits s'
  end.

(** [int(s)], as CPython 3.11 has it: surrounding white space, an
    optional sign, then at most 4300 digits; [None] stands for
    [ValueError]. *)
Definition int (s : string) : option Z :=
  match lstrip_by int_space (rstrip_by int_space s) with
  | String c s' =>
      if 4300 <? count_digits (String c s') then None
      else if Ascii.eqb c "-" then
        match s' with
        | String d _ => if isdecimal d then option_map Z.opp (int_digits 0 false s') else None
        | EmptyString => None
        end
      else if Ascii.eqb c "+" then
        match s' with
        | String d _ => if isdecimal d then int_digits 0 false s' else None
        | EmptyString => None
        end
      else if isdecimal c then int_digits 0 false (String c s')
      else None
  | EmptyString => None
  end.

End PyStr.

(** ** Regular expressions

    A backtracking matcher with Python's priorities: the left alternative
    first, repetition greedy.  [Cls p] matches one character of the class
    [p]; the body of a [Star] is never nullable in the patterns below. *)

Module Re.

Inductive regex : Type :=
| Eps : regex
| Cls : (ascii -> bool) -> regex
| Seq : regex -> regex -> regex
| Alt : regex -> regex -> regex
| Star : regex -> regex.

(** [run r k s]: match [r] at the start of [s] and hand the rest to the
    continuation [k]; the first success in priority order wins. *)
Fixpoint run {A : Type} (r : regex) (k : string -> option A) (s : string)
  : option A :=
  match r with
  | Eps => k s
  | Cls p =>
      match s with
      | String c s' => if p c then k s' else None
      | EmptyString => None
      end
  | Seq r1 r2 => run r1 (run r2 k) s
  | Alt r1 r2 =>
      match run r1 k s with
      | Some x => Some x
      | None => run r2 k s
      end
  | Star r1 =>
      (fix iter (n : nat) (s : string) {struct n} : option A :=
         match n with
         | O => k s
         | S n' =>
             match run r1 (fun s' =>
                             if String.length s' <? String.length s
                             then iter n' s' else None) s with
             | Some x => Some x
             | None => k s
             end
         end) (String.length s) s
  end.

(** The length of the match of [r] at the start of [s]. *)
Definition match_len (r : regex) (s : string) : option nat :=
  run r (fun s' => Some (String.length s - String.length s')) s.

(** [pattern.match(s)] as a truth value. *)
Definition matches (r : regex) (s : string) : bool :=
  match match_len r s with Some _ => true | None => false end.

(** [pattern.search(s)] as a truth value. *)
Fixpoint search (r : regex) (s : string) : bool :=
  matches r s ||
  match s with
  | EmptyString => false
  | String _ s' => search r s'
  end.

(** [pattern.findall(s)] for a pattern without groups: the matched texts
    from left to right, without overlap.  [skip] counts the characters
    of the last match that are still to be passed. *)
Fixpoint findall_from (r : regex) (skip : nat) (s : string) : list string :=
  match skip with
  | S k =>
      match s with
      | String _ s' => findall_from r k s'
      | EmptyString => []
      end
  | O =>
      match match_len r s with
      | Some n =>
          PyStr.take n s ::
          match s with
          | String _ s' => findall_from r (pred n) s'
          | EmptyString => []
          end
      | None =>
          match s with
          | String _ s' => findall_from r 0 s'
          | EmptyString => []
          end
      end
  end.

Definition findall (r : regex) (s : string) : list string := findall_from r 0 s.

(** Pattern syntax. *)
Definition chr (c : ascii) : regex := Cls (Ascii.eqb c).
Definition chr_i (c : ascii) : regex :=
  Cls (fun x => Ascii.eqb (PyStr.lower_char x) (PyStr.lower_char c)).
Definition digit : regex := Cls PyStr.isdecimal.
Definition opt (r : regex) : regex := Alt r Eps.
Definition plus (r : regex) : regex := Seq r (Star r).

Fixpoint times (n : nat) (r : regex) : regex :=
  match n with
  | O => Eps
  | S n' => Seq r (times n' r)
  end.

(** [r{0,n}], greedy. *)
Fixpoint upto (n : nat) (r : regex) : regex :=
  match n with
  | O => Eps
  | S n' => opt (Seq r (upto n' r))
  end.

(** [r{m,n}] for [m <= n]. *)
Definition repeat (m n : nat) (r : regex) : regex :=
  Seq (times m r) (upto (n - m) r).

(** A literal text, compared exactly, or with [re.IGNORECASE]. *)
Fixpoint lit (s : string) : regex :=
  match s with
  | EmptyString => Eps
  | String c s' => Seq (chr c) (lit s')
  end.

Fixpoint lit_i (s : string) : regex :=
  match s with
  | EmptyString => Eps
  | String c s' => Seq (chr_i c) (lit_i s')
  end.

End Re.

(** ** The three patterns of the script *)

(** [^\d{2}\.\d{2}\.\d{4}] *)
Definition DATE_RE : Re.regex :=
  Re.Seq (Re.times 2 Re.digit)
    (Re.Seq (Re.chr ".")
       (Re.Seq (Re.times 2 Re.digit)
          (Re.Seq (Re.chr ".") (Re.times 4 Re.digit)))).

(** [-?\d{1,3}(?:\.\d{3})*,\d{2}] *)
Definition AMOUNT_RE : Re.regex :=
  Re.Seq (Re.opt (Re.chr "-"))
    (Re.Seq (Re.repeat 1 3 Re.digit)
       (Re.Seq (Re.Star (Re.Seq (Re.chr ".") (Re.times 3 Re.digit)))
          (Re.Seq (Re.chr ",") (Re.times 2 Re.digit)))).

(** [(Kontostand am|Gesamtumsatzsummen|Ihr Dispositionskredit|Hinweise zum
    Kontoauszug|Deutsche Kreditbank AG|Seite \d+ von)], [re.IGNORECASE]. *)
Definition END_MARKER_RE : Re.regex :=
  Re.Alt (Re.lit_i "Kontostand am")
    (Re.Alt (Re.lit_i "Gesamtumsatzsummen")
       (Re.Alt (Re.lit_i "Ihr Dispositionskredit")
          (Re.Alt (Re.lit_i "Hinweise zum Kontoauszug")
             (Re.Alt (Re.lit_i "Deutsche Kreditbank AG")
                (Re.Seq (Re.lit_i "Seite ")
                   (Re.Seq (Re.plus Re.digit) (Re.lit_i " von"))))))).

(** ** Transaction records *)

(** A booking is the dict built by [parse_lines]; the keys ["Name"],
    ["Beschreibung"] and ["Quelle"] are added later and may be absent. *)
Record booking : Type := mkBooking {
  Datum : string;
  Buchungsart : string;
  Textblock : string;
  Soll : string;
  Haben : string;
  Name : option string;
  Beschreibung : option string;
  Quelle : option string
}.

Definition set_Textblock (t : string) (b : booking) : booking :=
  mkBooking (Datum b) (Buchungsart b) t (Soll b) (Haben b)
    (Name b) (Beschreibung b) (Quelle b).

Definition set_Name (n : string) (b : booking) : booking :=
  mkBooking (Datum b) (Buchungsart b) (Textblock b) (Soll b) (Haben b)
    (Some n) (Beschreibung b) (Quelle b).

Definition set_Beschreibung (d : string) (b : booking) : booking :=
  mkBooking (Datum b) (Buchungsart b) (Textblock b) (Soll b) (Haben b)
    (Name b) (Some d) (Quelle b).

Definition set_Quelle (q : string) (b : booking) : booking :=
  mkBooking (Datum b) (Buchungsart b) (Textblock b) (Soll b) (Haben b)
    (Name b) (Beschreibung b) (Some q).

(** ** The line parser *)

Definition normalize_amount (val : string) : string :=
  if PyStr.nonempty val
  then PyStr.replace "," "." (PyStr.replace "." EmptyString val)
  else EmptyString.

(** The last element of [amounts], the list being known not to be empty. *)
Definition last_amount (amounts : list string) : string := List.last amounts EmptyString.

(** The record opened by a line that starts with a date; [line] is the
    line without its trailing white space. *)
Definition open_booking (line : string) : booking :=
  let date := PyStr.take 10 line in
  let line := PyStr.strip (PyStr.drop 10 line) in
  let amounts := Re.findall AMOUNT_RE line in
  let amount := normalize_amount (last_amount amounts) in
  let debit := PyStr.contains "-" (last_amount amounts) in
  mkBooking date
    (PyStr.strip (PyStr.take 20 line))
    EmptyString
    (match amounts with [] => EmptyString | _ => if debit then amount else EmptyString end)
    (match amounts with [] => EmptyString | _ => if debit then EmptyString else amount end)
    None None None.

(** The state of the loop of [parse_lines]: the closed records and the
    open one. *)
Record parser : Type := mkParser {
  bookings : list booking;
  current : option booking
}.

Inductive flow : Type := Next | Break.

(** One turn of the loop. *)
Definition parse_line (st : parser) (raw : string) : parser * flow :=
  let line := PyStr.rstrip raw in
  if Re.matches DATE_RE line then
    let closed :=
      match current st with
      | Some c => bookings st ++ [c]
      | None => bookings st
      end in
    (mkParser closed (Some (open_booking line)), Next)
  else
    match current st with
    | Some c =>
        if Re.search END_MARKER_RE line then
          (mkParser (bookings st ++ [c]) None, Break)
        else
          let clean := PyStr.strip line in
          if String.length clean <? 2 then (st, Next)
          else if PyStr.nonempty (Textblock c) then
            (mkParser (bookings st)
               (Some (set_Textblock (Textblock c +:+ " " +:+ clean) c)), Next)
          else
            (mkParser (bookings st) (Some (set_Textblock clean c)), Next)
    | None => (st, Next)
    end.

Fixpoint parse_loop (lines : list string) (st : parser) : parser * flow :=
  match lines with
  | [] => (st, Next)
  | line :: rest =>
      match parse_line st line with
      | (st', Break) => (st', Break)
      | (st', Next) => parse_loop rest st'
      end
  end.

Definition close (st : parser) : list booking :=
  match current st with
  | Some c => bookings st ++ [c]
  | None => bookings st
  end.

Definition parse_lines (lines : list string) : list booking :=
  close (fst (parse_loop lines (mkParser [] None))).

(** ** The rule document: [json.dump] and [json.load]

    The two library calls of the script, [json.dump(db, f, indent=2,
    ensure_ascii=False)] and [json.load(f)], on the documents of the rule
    store: one flat object whose keys and values are strings.  [loads]
    answers [None] where [json.load] raises, and also where the document
    holds anything else than such an object, or a [\u] escape beyond the
    alphabet; [rejects] tells the two apart. *)

Module Json.

Definition dict : Type := list (string * string).

(** [db[key] = value]: a known key keeps its place and takes the new
    value, a new key goes to the end. *)
Fixpoint upsert (key value : string) (db : dict) : dict :=
  match db with
  | [] => [(key, value)]
  | (k, v) :: db' =>
      if String.eqb key k then (k, value) :: db'
      else (k, v) :: upsert key value db'
  end.

Definition keys (db : dict) : list string := map fst db.
Definition values (db : dict) : list string := map snd db.

(** The dict built from the members of an object, in their order. *)
Definition of_pairs (ps : list (string * string)) : dict :=
  fold_left (fun db kv => upsert (fst kv) (snd kv) db) ps [].

Definition dquote : ascii := "034"%char.
Definition backslash : ascii := "092"%char.
Definition newline : ascii := "010"%char.

Definition hex_char (n : N) : ascii :=
  if (n <? 10)%N then ascii_of_N (48 + n) else ascii_of_N (87 + n).

(** The encoder's escape table: the quote, the backslash and the control
    characters below U+0020. *)
Definition escape_char (c : ascii) : string :=
  let n := PyStr.code c in
  if Ascii.eqb c dquote then String backslash (String dquote EmptyString)
  else if Ascii.eqb c backslash then String backslash (String backslash EmptyString)
  else if (n =? 10)%N then "\n"
  else if (n =? 13)%N then "\r"
  else if (n =? 9)%N then "\t"
  else if (n =? 8)%N then "\b"
  else if (n =? 12)%N then "\f"
  else if (n <? 32)%N then
    "\u00" +:+ String (hex_char (n / 16)) (String (hex_char (n mod 16)) EmptyString)
  else String c EmptyString.

Fixpoint escape (s : string) : string :=
  match s with
  | EmptyString => EmptyString
  | String c s' => escape_char c +:+ escape s'
  end.

Definition encode_string (s : string) : string :=
  String dquote (escape s +:+ String dquote EmptyString).

Definition member (kv : string * string) : string :=
  encode_string (fst kv) +:+ ": " +:+ encode_string (snd kv).

(** The separator between two members with [indent=2]. *)
Definition newline_indent : string := String newline "  ".

Fixpoint members (db : dict) : string :=
  match db with
  | [] => EmptyString
  | [kv] => member kv
  | kv :: db' => member kv +:+ "," +:+ newline_indent +:+ members db'
  end.

Definition dumps (db : dict) : string :=
  match db with
  | [] => "{}"
  | _ => "{" +:+ newline_indent +:+ members db +:+ String newline "}"
  end.

(** Decoding: the tokens of the document, then its one object. *)
Inductive token : Type :=
| LBrace | RBrace | Colon | Comma
| Str (s : string).

(** White space between tokens: space, TAB, LF, CR. *)
Definition is_ws (c : ascii) : bool :=
  let n := PyStr.code c in
  (n =? 32)%N || (n =? 9)%N || (n =? 10)%N || (n =? 13)%N.

Definition hex_value (c : ascii) : option N :=
  let n := PyStr.code c in
  if PyStr.between 48 57 c then Some (n - 48)%N
  else if PyStr.between 97 102 c then Some (n - 87)%N
  else if PyStr.between 65 70 c then Some (n - 55)%N
  else None.

(** The character of [\uXXXX], inside the alphabet. *)
Definition hex4 (a b c d : ascii) : option ascii :=
  match hex_value a, hex_value b, hex_value c, hex_value d with
  | Some x, Some y, Some z, Some t =>
      let n := (4096 * x + 256 * y + 16 * z + t)%N in
      if (n <? 256)%N then Some (ascii_of_N n) else None
  | _, _, _, _ => None
  end.

(** The character of a one-letter escape. *)
Definition unescape (e : ascii) : option ascii :=
  if Ascii.eqb e dquote then Some dquote
  else if Ascii.eqb e backslash then Some backslash
  else if Ascii.eqb e "/" then Some "/"%char
  else if Ascii.eqb e "b" then Some "008"%char
  else if Ascii.eqb e "f" then Some "012"%char
  else if Ascii.eqb e "n" then Some "010"%char
  else if Ascii.eqb e "r" then Some "013"%char
  else if Ascii.eqb e "t" then Some "009"%char
  else None.

(** Put one more character in front of the string token being read. *)
Definition push (c : ascii) (r : option (list token)) : option (list token) :=
  match r with
  | Some (Str s :: ts) => Some (Str (String c s) :: ts)
  | _ => None
  end.

(** [lex] reads between tokens, [lex_string] inside a string, after its
    opening quote; a raw control character ends the decoding. *)
Fixpoint lex (s : string) : option (list token) :=
  match s with
  | EmptyString => Some []
  | String c s' =>
      if is_ws c then lex s'
      else if Ascii.eqb c "{" then option_map (cons LBrace) (lex s')
      else if Ascii.eqb c "}" then option_map (cons RBrace) (lex s')
      else if Ascii.eqb c ":" then option_map (cons Colon) (lex s')
      else if Ascii.eqb c "," then option_map (cons Comma) (lex s')
      else if Ascii.eqb c dquote then lex_string s'
      else None
  end
with lex_string (s : string) : option (list token) :=
  match s with
  | EmptyString => None
  | String c s' =>
      if Ascii.eqb c dquote then option_map (cons (Str EmptyString)) (lex s')
      else if Ascii.eqb c backslash then
        match s' with
        | String e s'' =>
            if Ascii.eqb e "u" then
              match s'' with
              | String h1 (String h2 (String h3 (String h4 t))) =>
                  match hex4 h1 h2 h3 h4 with
                  | Some ch => push ch (lex_string t)
                  | None => None
                  end
              | _ => None
              end
            else
              match unescape e with
              | Some ch => push ch (lex_string s'')
              | None => None
              end
        | EmptyString => None
        end
      else if (PyStr.code c <? 32)%N then None
      else push c (lex_string s')
  end.

(** The members after the opening brace, up to the end of the document. *)
Fixpoint parse_members (ts : list token) : option (list (string * string)) :=
  match ts with
  | Str k :: Colon :: Str v :: rest =>
      match rest with
      | [RBrace] => Some [(k, v)]
      | Comma :: rest' => option_map (cons (k, v)) (parse_members rest')
      | _ => None
      end
  | _ => None
  end.

Definition parse_object (ts : list token) : option (list (string * string)) :=
  match ts with
  | [LBrace; RBrace] => Some []
  | LBrace :: ts' => parse_members ts'
  | _ => None
  end.

Definition loads (text : string) : option dict :=
  match lex text with
  | Some ts => option_map of_pairs (parse_object ts)
  | None => None
  end.

(** A document on which [loads] gives nothing is not always one that
    [json.load] refuses: it may hold numbers, lists, nested objects or
    characters beyond the alphabet.  [rejects] follows the decoder over a
    flat document and tells where it surely raises [JSONDecodeError]; it
    stops undecided where a value other than a string may begin. *)
Inductive place : Type :=
| AtValue       (* before the value of the document *)
| AtFirstKey    (* after the opening brace *)
| AtKey         (* after a comma *)
| AtColon       (* after a key *)
| AtMember      (* after a colon *)
| AfterMember   (* after the value of a member *)
| AtEnd.        (* after the value of the document *)

Inductive verdict : Type := Rejected | Undecided | Accepted.

Fixpoint scan (q : place) (s : string) : verdict :=
  match s with
  | EmptyString => match q with AtEnd => Accepted | _ => Rejected end
  | String c s' =>
      if is_ws c then scan q s'
      else
        match q with
        | AtValue =>
            if Ascii.eqb c "{" then scan AtFirstKey s'
            else if Ascii.eqb c dquote then scan_string AtEnd s'
            else Undecided
        | AtFirstKey =>
            if Ascii.eqb c dquote then scan_string AtColon s'
            else if Ascii.eqb c "}" then scan AtEnd s'
            else Rejected
        | AtKey =>
            if Ascii.eqb c dquote then scan_string AtColon s' else Rejected
        | AtColon =>
            if Ascii.eqb c ":" then scan AtMember s' else Rejected
        | AtMember =>
            if Ascii.eqb c dquote then scan_string AfterMember s' else Undecided
        | AfterMember =>
            if Ascii.eqb c "," then scan AtKey s'
            else if Ascii.eqb c "}" then scan AtEnd s'
            else Rejected
        | AtEnd => Rejected
        end
  end
with scan_string (q : place) (s : string) : verdict :=
  match s with
  | EmptyString => Rejected
  | String c s' =>
      if Ascii.eqb c dquote then scan q s'
      else if Ascii.eqb c backslash then
        match s' with
        | String e s'' =>
            if Ascii.eqb e "u" then
              match s'' with
              | String h1 (String h2 (String h3 (String h4 t))) =>
                  match hex_value h1, hex_value h2, hex_value h3, hex_value h4 with
                  | Some _, Some _, Some _, Some _ => scan_string q t
                  | _, _, _, _ => Rejected
                  end
              | _ => Rejected
              end
            else
              match unescape e with
              | Some _ => scan_string q s''
              | None => Rejected
              end
        | EmptyString => Rejected
        end
      else if (PyStr.code c <? 32)%N then Rejected
      else scan_string q s'
  end.

Definition rejects (text : string) : bool :=
  match scan AtValue text with
  | Rejected => true
  | _ => false
  end.

End Json.

(** ** Text beyond the alphabet

    [input()] may return, and [save_reference] may be given, a text with
    a lone surrogate, which UTF-8 cannot encode.  [Lone a] is the code
    point U+DC00 + [a]; a [utext] is a text over the alphabet and these. *)

Inductive uchar : Type :=
| Chr (a : ascii)
| Lone (a : ascii).

Definition utext : Type := list uchar.

Fixpoint plain (s : string) : utext :=
  match s with
  | EmptyString => []
  | String c s' => Chr c :: plain s'
  end.

(** [t.encode("utf-8")], read back as text; [None] stands for
    [UnicodeEncodeError]. *)
Fixpoint utf8 (t : utext) : option string :=
  match t with
  | [] => Some EmptyString
  | Chr c :: t' => option_map (String c) (utf8 t')
  | Lone _ :: _ => None
  end.

Definition uchar_eqb (x y : uchar) : bool :=
  match x, y with
  | Chr a, Chr b => Ascii.eqb a b
  | Lone a, Lone b => Ascii.eqb a b
  | _, _ => false
  end.

Fixpoint utext_eqb (s t : utext) : bool :=
  match s, t with
  | [], [] => true
  | x :: s', y :: t' => uchar_eqb x y && utext_eqb s' t'
  | _, _ => false
  end.

(** A dict in memory, and [db[key] = value] on it. *)
Definition udict : Type := list (utext * utext).

Definition lift (db : Json.dict) : udict :=
  map (fun kv => (plain (fst kv), plain (snd kv))) db.

Fixpoint uupsert (key value : utext) (db : udict) : udict :=
  match db with
  | [] => [(key, value)]
  | (k, v) :: db' =>
      if utext_eqb key k then (k, value) :: db'
      else (k, v) :: uupsert key value db'
  end.

(** The pieces [json.dump] hands to the file one after the other, each
    as the bytes it encodes to; [None] is a piece that cannot be
    encoded. *)
Definition string_chunk (t : utext) : option string :=
  option_map Json.encode_string (utf8 t).

Fixpoint member_chunks (first : bool) (db : udict) : list (option string) :=
  match db with
  | [] => []
  | (k, v) :: db' =>
      (if first then [] else [Some ("," +:+ Json.newline_indent)]) ++
      [string_chunk k; Some ": "; string_chunk v] ++
      member_chunks false db'
  end.

Definition dump_chunks (db : udict) : list (option string) :=
  match db with
  | [] => [Some "{}"]
  | _ =>
      [Some "{"; Some Json.newline_indent] ++ member_chunks true db ++
      [Some (String Json.newline EmptyString); Some "}"]
  end.

(** The file after the pieces were written, up to the first one that
    cannot be encoded, and whether all were written. *)
Fixpoint write_chunks (written : string) (chunks : list (option string))
  : string * bool :=
  match chunks with
  | [] => (written, true)
  | Some c :: chunks' => write_chunks (written +:+ c) chunks'
  | None :: _ => (written, false)
  end.

(** ** The world the script runs in *)

Inductive exn : Type :=
| EOFError            (* [input()] with nothing left to read *)
| ValueError          (* [int()] of a text that is no number *)
| JSONDecodeError     (* [json.load] of a document that is no JSON *)
| UnicodeEncodeError  (* writing a text that UTF-8 cannot encode *)
| OutsideModel.       (* no exception: the document decodes, but not to a
                         flat mapping of texts over the alphabet, and what
                         the script does with it is not modelled *)

Inductive result (A : Type) : Type :=
| Ok (a : A)
| Raise (e : exn).
Arguments Ok {A} a.
Arguments Raise {A} e.

Record world : Type := mkWorld {
  files : gmap string string;
  stdin : list string
}.

(** A computation reads and changes the world and returns or raises. *)
Definition M (A : Type) : Type := world -> result A * world.

Definition ret {A : Type} (a : A) : M A := fun w => (Ok a, w).

Definition raise {A : Type} (e : exn) : M A := fun w => (Raise e, w).

Definition bind {A B : Type} (m : M A) (f : A -> M B) : M B :=
  fun w =>
    match m w with
    | (Ok a, w') => f a w'
    | (Raise e, w') => (Raise e, w')
    end.

Notation "'let*' x ':=' m 'in' k" := (bind m (fun x => k))
  (at level 10, x pattern, m at level 100, k at level 200).

(** A computation that only reads the files. *)
Definition reading {A : Type} (f : gmap string string -> result A) : M A :=
  fun w => (f (files w), w).

(** A computation on the console input alone, the files being read only. *)
Definition prompting {A : Type}
    (f : gmap string string -> list string -> result A * list string) : M A :=
  fun w =>
    let '(r, rest) := f (files w) (stdin w) in
    (r, mkWorld (files w) rest).

(** ** The rule store *)

Definition load_reference_db (path : string) (fs : gmap string string)
  : result Json.dict :=
  match fs !! path with
  | None => Ok []
  | Some text =>
      match Json.loads text with
      | Some db => Ok db
      | None =>
          if Json.rejects text then Raise JSONDecodeError
          else Raise OutsideModel
      end
  end.

(** [save_reference]: after the load, [open(path, "w")] empties the file
    and [json.dump] writes its pieces; a piece that cannot be encoded
    raises, and the file keeps what was written before it. *)
Definition save_reference (key value : utext) (path : string) : M unit :=
  fun w =>
    match load_reference_db path (files w) with
    | Ok db =>
        let '(written, complete) :=
          write_chunks EmptyString (dump_chunks (uupsert key value (lift db))) in
        (if complete then Ok tt else Raise UnicodeEncodeError,
         mkWorld (<[path := written]> (files w)) (stdin w))
    | Raise e => (Raise e, w)
    end.

(** [sorted(set(xs))]: the distinct texts in ascending order. *)
Fixpoint insert_unique (x : string) (l : list string) : list string :=
  match l with
  | [] => [x]
  | y :: l' =>
      match String.compare x y with
      | Lt => x :: l
      | Eq => l
      | Gt => y :: insert_unique x l'
      end
  end.

Definition sorted_set (xs : list string) : list string :=
  fold_right insert_unique [] xs.

Definition load_declarations (path : string) (fs : gmap string string)
  : result (list string) :=
  match load_reference_db path fs with
  | Ok db => Ok (sorted_set (Json.values db))
  | Raise e => Raise e
  end.

(** ** Cleaning and rule application *)

(** [clean_description(text)]; [None] and the empty text give the empty
    text. *)
Definition clean_description (text : option string) : string :=
  match text with
  | Some t => if PyStr.nonempty t then PyStr.lstrip_chars " ,.;:-/)_" t else EmptyString
  | None => EmptyString
  end.

(** [bool(x)] for a value that is [None] or a string. *)
Definition truthy (x : option string) : bool :=
  match x with
  | Some s => PyStr.nonempty s
  | None => false
  end.

Fixpoint apply_split_rule (text : string) (rules : Json.dict)
  : option string * option string :=
  match rules with
  | [] => (None, None)
  | (key, value) :: rules' =>
      if PyStr.contains key text
      then (Some value, Some (PyStr.strip (PyStr.drop (String.length key) text)))
      else apply_split_rule text rules'
  end.

Definition format_amount (b : booking) : string :=
  if PyStr.nonempty (Soll b) then "-" +:+ Soll b +:+ " EUR"
  else if PyStr.nonempty (Haben b) then "+" +:+ Haben b +:+ " EUR"
  else "0,00 EUR".

(** ** The fuzzy shortlist and the enricher

    [SequenceMatcher(None, a, b).ratio()] belongs to the library [difflib];
    it is a parameter of what follows.  Its value is [2 * M / T] for two
    naturals, kept here as the exact rational. *)

Section Enricher.

Variable ratio : string -> string -> Q.

Definition fuzzy_score (a b : string) : Q :=
  ratio (PyStr.lower a) (PyStr.lower b).

(** [scored.sort(key=lambda x: x[1], reverse=True)]: a stable sort, the
    greatest score first; entries of equal score keep their order. *)
Fixpoint insert_desc (x : string * Q) (l : list (string * Q)) : list (string * Q) :=
  match l with
  | [] => [x]
  | y :: l' =>
      if Qle_bool (snd y) (snd x) then x :: l
      else y :: insert_desc x l'
  end.

Definition sort_desc (l : list (string * Q)) : list (string * Q) :=
  fold_right insert_desc [] l.

(** The loop that fills [scored]. *)
Fixpoint score_names (text : string) (threshold : Q) (names : list string)
  : list (string * Q) :=
  match names with
  | [] => []
  | name :: names' =>
      let score := fuzzy_score text name in
      if Qle_bool threshold score
      then (name, score) :: score_names text threshold names'
      else score_names text threshold names'
  end.

Definition get_fuzzy_declarations_with (text : string) (threshold : Q) (limit : nat)
    (fs : gmap string string) : result (list (string * Q)) :=
  match load_declarations "split_rules.json" fs with
  | Ok names => Ok (take limit (sort_desc (score_names text threshold names)))
  | Raise e => Raise e
  end.

(** The call with the default arguments [threshold=0.4, limit=5]. *)
Definition get_fuzzy_declarations (text : string) (fs : gmap string string)
  : result (list (string * Q)) :=
  get_fuzzy_declarations_with text (4 # 10) 5 fs.

(** How a turn of a [while True] loop of a function ends: the function
    returns, or the loop is left and the function goes on. *)
Inductive leave (A B : Type) : Type :=
| Return (a : A)
| Leave (b : B).
Arguments Return {A B} a.
Arguments Leave {A B} b.

(** [xs[idx]] after the test [0 <= idx < len(xs)]. *)
Definition in_range {A : Type} (idx : Z) (xs : list A) : option A :=
  if ((0 <=? idx) && (idx <? Z.of_nat (length xs)))%Z
  then xs !! Z.to_nat idx
  else None.

(** The first loop of [ask_user_select_declaration]. *)
Fixpoint select_loop (text : string) (fs : gmap string string) (inp : list string)
  : result (leave (option string) unit) * list string :=
  match get_fuzzy_declarations text fs with
  | Raise e => (Raise e, inp)
  | Ok [] => (Ok (Leave tt), inp)
  | Ok fuzzy =>
      match inp with
      | [] => (Raise EOFError, [])
      | answer :: inp' =>
          let choice := PyStr.lower (PyStr.strip answer) in
          let others :=
            if String.eqb choice "a" then (Ok (Leave tt), inp')
            else if String.eqb choice "n" then (Ok (Return None), inp')
            else select_loop text fs inp' in
          if PyStr.isdigit choice then
            match PyStr.int choice with
            | None => (Raise ValueError, inp')
            | Some n =>
                match in_range (n - 1)%Z fuzzy with
                | Some entry => (Ok (Return (Some (fst entry))), inp')
                | None => others
                end
            end
          else others
      end
  end.

(** The rest of [ask_user_select_declaration]: the full list. *)
Definition select_all (fs : gmap string string) (inp : list string)
  : result (option string) * list string :=
  match load_declarations "split_rules.json" fs with
  | Raise e => (Raise e, inp)
  | Ok [] => (Ok None, inp)
  | Ok names =>
      match inp with
      | [] => (Raise EOFError, [])
      | answer :: inp' =>
          let choice := PyStr.lower (PyStr.strip answer) in
          if PyStr.isdigit choice then
            match PyStr.int choice with
            | None => (Raise ValueError, inp')
            | Some n =>
                match in_range (n - 1)%Z names with
                | Some name => (Ok (Some name), inp')
                | None => (Ok None, inp')
                end
            end
          else (Ok None, inp')
      end
  end.

Definition ask_user_select_declaration (text : string) : M (option string) :=
  let* r := prompting (select_loop text) in
  match r with
  | Return x => ret x
  | Leave _ => prompting select_all
  end.

(** [input(...)]. *)
Definition input : M string :=
  fun w =>
    match stdin w with
    | [] => (Raise EOFError, w)
    | l :: rest => (Ok l, mkWorld (files w) rest)
    end.

(** The first loop of [ask_user_for_split]: ask for the marker until it
    is empty or found; the answer is the marker and its last position. *)
Fixpoint marker_loop (text : string) (inp : list string)
  : result (leave unit (string * Z)) * list string :=
  match inp with
  | [] => (Raise EOFError, [])
  | answer :: inp' =>
      let marker := PyStr.strip answer in
      if negb (PyStr.nonempty marker) then (Ok (Return tt), inp')
      else
        let idx := PyStr.rfind (PyStr.lower marker) (PyStr.lower text) in
        if (idx =? -1)%Z then marker_loop text inp'
        else (Ok (Leave (marker, idx)), inp')
  end.

(** The second loop: move the split point until the answer is [0] or no
    number. *)
Fixpoint shift_loop (text : string) (split_idx : Z) (inp : list string)
  : result Z * list string :=
  match inp with
  | [] => (Raise EOFError, [])
  | answer :: inp' =>
      match PyStr.int answer with
      | None => (Ok split_idx, inp')
      | Some shift =>
          if (shift =? 0)%Z then (Ok split_idx, inp')
          else
            shift_loop text
              (Z.max 0 (Z.min (Z.of_nat (String.length text)) (split_idx + shift)))
              inp'
      end
  end.

(** The triple [name, rest, key] of [ask_user_for_split]. *)
Definition answer : Type := option string * option string * option string.

Definition ask_user_for_split (b : booking) : M answer :=
  let text := PyStr.strip (Textblock b) in
  let* m := prompting (fun _ => marker_loop text) in
  match m with
  | Return _ => ret (None, None, None)
  | Leave (marker, idx) =>
      let split_idx := (idx + Z.of_nat (String.length marker))%Z in
      let* split_idx := prompting (fun _ => shift_loop text split_idx) in
      let rest := PyStr.strip (PyStr.drop (Z.to_nat split_idx) text) in
      let key := PyStr.strip (PyStr.take (Z.to_nat split_idx) text) in
      let* selected := ask_user_select_declaration key in
      if truthy selected then ret (selected, Some rest, Some key)
      else
        let* line := input in
        let name := PyStr.strip line in
        if negb (PyStr.nonempty name) then ret (Some key, Some rest, Some key)
        else ret (Some name, Some rest, Some key)
  end.

(** The branch [if interactive:] of the loop of [enrich_bookings], for
    one record.  The record is changed in place, so it is returned also
    when the branch raises. *)
Definition prompt_booking (b : booking) (w : world)
  : booking * result unit * world :=
  let text := PyStr.strip (Textblock b) in
  match ask_user_for_split b w with
  | (Raise e, w') => (b, Raise e, w')
  | (Ok (name, rest, key), w') =>
      if truthy name then
        let b' := set_Beschreibung (clean_description rest)
                    (set_Name (default EmptyString key) b) in
        let '(r, w'') :=
          save_reference (plain (default EmptyString key))
            (plain (default EmptyString name)) "split_rules.json" w' in
        (b', r, w'')
      else
        (set_Beschreibung EmptyString (set_Name text b), Ok tt, w')
  end.

(** The body of the loop of [enrich_bookings] for one record. *)
Definition enrich_booking (interactive : bool) (b : booking) (w : world)
  : booking * result unit * world :=
  match load_reference_db "split_rules.json" (files w) with
  | Raise e => (b, Raise e, w)
  | Ok rules =>
      let text := PyStr.strip (Textblock b) in
      let '(label, rest) := apply_split_rule text rules in
      if truthy label then
        (set_Beschreibung (clean_description rest)
           (set_Name (default EmptyString label) b), Ok tt, w)
      else if interactive then prompt_booking b w
      else (b, Ok tt, w)
  end.

(** [enrich_bookings]: the records after the call, how the call ended,
    and the world it leaves. *)
Fixpoint enrich_bookings (bookings : list booking) (interactive : bool) (w : world)
  : list booking * result unit * world :=
  match bookings with
  | [] => ([], Ok tt, w)
  | b :: rest =>
      match enrich_booking interactive b w with
      | (b', Ok _, w') =>
          let '(rest', r, w'') := enrich_bookings rest interactive w' in
          (b' :: rest', r, w'')
      | (b', Raise e, w') => (b' :: rest, Raise e, w')
      end
  end.

End Enricher.

(** [for b in bookings: b["Quelle"] = name], as in [process_folder] and
    [main]. *)
Definition set_source (name : string) (bookings : list booking) : list booking :=
  map (set_Quelle name) bookings.

(** The fields of one row of [write_csv], without ["Quelle"]. *)
Definition csv_row (b : booking) : list string :=
  [Datum b; Buchungsart b;
   PyStr.strip (default EmptyString (Name b));
   PyStr.strip (default EmptyString (Beschreibung b));
   Soll b; Haben b].

(** ** Vocabulary of the statements *)

(** The parser before the first line. *)
Definition start : parser := mkParser [] None.

(** A line that opens a record, and a line with an end-of-statement
    marker, both as [parse_lines] tests them. *)
Definition is_header (line : string) : bool :=
  Re.matches DATE_RE (PyStr.rstrip line).

Definition has_marker (line : string) : bool :=
  Re.search END_MARKER_RE (PyStr.rstrip line).

(** A line that neither opens a record nor ends the statement. *)
Definition is_continuation (line : string) : bool :=
  negb (is_header line) && negb (has_marker line).

(** The line after the last line of a record: none, a header, or a marker
    line that is no header. *)
Definition closes (post : list string) : bool :=
  match post with
  | [] => true
  | line :: _ => is_header line || has_marker line
  end.

(** The continuation lines that reach the text block, trimmed: those of
    at least two characters. *)
Definition accepted (lines : list string) : list string :=
  List.filter (fun clean => 2 <=? String.length clean)
    (map (fun line => PyStr.strip (PyStr.rstrip line)) lines).

(** The text block after one more trimmed line. *)
Definition extend (t clean : string) : string :=
  if PyStr.nonempty t then t +:+ " " +:+ clean else clean.

(** [" ".join(xs)]. *)
Fixpoint spaced (xs : list string) : string :=
  match xs with
  | [] => EmptyString
  | x :: xs' => " " +:+ x +:+ spaced xs'
  end.

Definition join_spaces (xs : list string) : string :=
  match xs with
  | [] => EmptyString
  | x :: xs' => x +:+ spaced xs'
  end.

(** The text block as the specification words it: the remainder of the
    header line after the date, then the accepted continuation lines. *)
Definition spec_textblock (header : string) (continuation : list string) : string :=
  join_spaces (PyStr.strip (PyStr.drop 10 (PyStr.rstrip header)) :: accepted continuation).

(** At most one of the two amounts is filled. *)
Definition exclusive_amounts (b : booking) : Prop :=
  Soll b = EmptyString \/ Haben b = EmptyString.

(** The description as the specification words it: the text that follows
    the first occurrence of the key, trimmed, leading punctuation
    stripped. *)
Definition spec_description (key text : string) : option string :=
  option_map
    (fun i => clean_description
                (Some (PyStr.strip (PyStr.drop (i + String.length key) text))))
    (PyStr.find key text).

(** No key of the rules occurs in the text. *)
Definition no_rule_matches (text : string) (rules : Json.dict) : Prop :=
  Forall (fun key => PyStr.contains key text = false) (Json.keys rules).

(** The invariant of the loop of [parse_lines]. *)
Definition parser_exclusive (st : parser) : Prop :=
  Forall exclusive_amounts (close st).

(** Two records with the same amounts. *)
Definition same_amounts (b b' : booking) : Prop :=
  Soll b' = Soll b /\ Haben b' = Haben b.

(** [x] stands before [y] in a list with the greatest score first. *)
Definition ranks_before (x y : string * Q) : Prop := (snd y <= snd x)%Q.

(** What the loop of [get_fuzzy_declarations] puts into [scored]: a known
    name with its score, the score being at least 0.4. *)
Definition shortlisted (ratio : string -> string -> Q) (text : string)
    (names : list string) (e : string * Q) : Prop :=
  In (fst e) names /\
  snd e = fuzzy_score ratio text (fst e) /\
  (4 # 10 <= snd e)%Q.

(** The tokens of the members of a written document. *)
Fixpoint member_tokens (db : Json.dict) : list Json.token :=
  match db with
  | [] => []
  | [(k, v)] => [Json.Str k; Json.Colon; Json.Str v]
  | (k, v) :: db' =>
      Json.Str k :: Json.Colon :: Json.Str v :: Json.Comma :: member_tokens db'
  end.

(** [db.get(key)]. *)
Fixpoint lookup_key (key : string) (db : Json.dict) : option string :=
  match db with
  | [] => None
  | (k, v) :: db' => if String.eqb key k then Some v else lookup_key key db'
  end.

(** ** Data of the examples *)

(** A record as the parser leaves it, with the given text block. *)
Definition debit_of (text : string) : booking :=
  mkBooking "01.01.2024" "Lastschrift -12,00" text "-12.00" EmptyString
    None None None.

(** A rule document with the given mapping, and nothing else on disk. *)
Definition store_of (db : Json.dict) : gmap string string :=
  {[ "split_rules.json" := Json.dumps db ]}.

(** A score for the examples: the share of the positions, counted over the
    longer text, at which the two texts agree. *)
Fixpoint agreeing (a b : string) : nat :=
  match a, b with
  | String x a', String y b' => (if Ascii.eqb x y then 1 else 0) + agreeing a' b'
  | _, _ => 0
  end.

Definition positional (a b : string) : Q :=
  Z.of_nat (agreeing a b) # Pos.of_nat (Nat.max (String.length a) (String.length b)).

(** ** Vocabulary of the further properties *)

(** A text without white space at either end. *)
Definition trimmed (s : string) : Prop :=
  PyStr.lstrip s = s /\ PyStr.rstrip s = s.

(** [c in s] for one character. *)
Definition has (c : ascii) (s : string) : bool :=
  PyStr.contains (String c EmptyString) s.

(** A line the parser passes over inside a record: no header, no marker,
    and fewer than two characters once trimmed. *)
Definition is_noise (line : string) : bool :=
  is_continuation line && (String.length (PyStr.strip (PyStr.rstrip line)) <? 2).

(** A date as [parse_lines] cuts it from a header line. *)
Definition dated (b : booking) : Prop :=
  Re.matches DATE_RE (Datum b) = true /\ String.length (Datum b) = 10.

(** The amounts as [parse_lines] leaves them: a filled debit holds a minus
    sign, the credit holds none, and neither holds a comma. *)
Definition signed_amounts (b : booking) : Prop :=
  (Soll b = EmptyString \/ has "-" (Soll b) = true) /\
  has "-" (Haben b) = false /\
  has "," (Soll b) = false /\ has "," (Haben b) = false.

(** The dates of the header lines, in their order. *)
Definition header_dates (lines : list string) : list string :=
  map (fun line => PyStr.take 10 (PyStr.rstrip line)) (List.filter is_header lines).

(** No line that ends the statement: every line is a header or holds no
    marker. *)
Definition no_end_marker (lines : list string) : bool :=
  forallb (fun line => is_header line || negb (has_marker line)) lines.

(** The characters [clean_description] removes from the left. *)
Definition is_separator (c : ascii) : bool := PyStr.mem c " ,.;:-/)_".

(** The order of [sorted] on texts: code point by code point. *)
Definition str_lt (a b : string) : Prop := String.compare a b = Lt.

(** [key in db]. *)
Definition has_key (key : string) (db : Json.dict) : bool :=
  existsb (String.eqb key) (Json.keys db).

(** The rule path of [enrich_bookings] on one record: name and description
    as the rules give them. *)
Definition label_by (rules : Json.dict) (b : booking) : booking :=
  let '(label, rest) := apply_split_rule (PyStr.strip (Textblock b)) rules in
  set_Beschreibung (clean_description rest) (set_Name (default EmptyString label) b).

(** The rules give the record a label that is not empty. *)
Definition rule_labels (rules : Json.dict) (b : booking) : bool :=
  truthy (apply_split_rule (PyStr.strip (Textblock b)) rules).1.

(** Two records that agree on all that the parser and the tagging set. *)
Definition same_parsed_fields (b b' : booking) : Prop :=
  Datum b' = Datum b /\ Buchungsart b' = Buchungsart b /\
  Textblock b' = Textblock b /\ Soll b' = Soll b /\ Haben b' = Haben b /\
  Quelle b' = Quelle b.

(** The head of a text that [findall] returns for the amount pattern. *)
Definition amount_head (m : string) : Prop :=
  exists c m0, m = String c m0 /\ (c = "-"%char \/ PyStr.isdecimal c = true).

(** * Properties *)

#[local] Arguments String.append _ _ : simpl nomatch.

(** ** Strings *)

Lemma append_nil_r (s : string) : s +:+ EmptyString = s.
Proof. induction s as [|c s IH]; simpl; [reflexivity | now rewrite IH]. Qed.

Lemma append_assoc (s t u : string) : (s +:+ t) +:+ u = s +:+ (t +:+ u).
Proof. induction s as [|c s IH]; simpl; [reflexivity | now rewrite IH]. Qed.

Lemma nonempty_append_l (s t : string) :
  PyStr.nonempty s = true -> PyStr.nonempty (s +:+ t) = true.
Proof. destruct s; simpl; [discriminate | reflexivity]. Qed.

Lemma nonempty_length (s : string) :
  (2 <=? String.length s) = true -> PyStr.nonempty s = true.
Proof. destruct s; simpl; [discriminate | reflexivity]. Qed.

Lemma startswith_drop (key text : string) :
  PyStr.startswith key text = true ->
  text = key +:+ PyStr.drop (String.length key) text.
Proof.
  revert text; induction key as [|a key IH]; intros [|b text]; simpl; try easy.
  intros H. apply andb_prop in H as [Hab Hrest].
  apply Ascii.eqb_eq in Hab. subst b. now rewrite <- IH.
Qed.

Lemma startswith_contains (key text : string) :
  PyStr.startswith key text = true -> PyStr.contains key text = true.
Proof. intros H. destruct text; simpl in *; now rewrite H. Qed.

Lemma startswith_find (key text : string) :
  PyStr.startswith key text = true -> PyStr.find key text = Some 0.
Proof. intros H. destruct text; simpl in *; now rewrite H. Qed.

(** ** The line parser *)

Lemma set_Textblock_same (b : booking) : set_Textblock (Textblock b) b = b.
Proof. now destruct b. Qed.

Lemma set_Textblock_twice (s t : string) (b : booking) :
  set_Textblock s (set_Textblock t b) = set_Textblock s b.
Proof. reflexivity. Qed.

Lemma parse_loop_app (l1 l2 : list string) (st : parser) :
  parse_loop (l1 ++ l2) st =
  match parse_loop l1 st with
  | (st', Break) => (st', Break)
  | (st', Next) => parse_loop l2 st'
  end.
Proof.
  revert st; induction l1 as [|l l1 IH]; intros st; simpl; [reflexivity|].
  destruct (parse_line st l) as [st' []]; [apply IH | reflexivity].
Qed.

Lemma parse_line_header (st : parser) (line : string) :
  is_header line = true ->
  parse_line st line =
  (mkParser (close st) (Some (open_booking (PyStr.rstrip line))), Next).
Proof.
  unfold is_header, parse_line, close. intros ->. now destruct (current st).
Qed.

Lemma parse_line_marker (st : parser) (c : booking) (line : string) :
  current st = Some c -> is_header line = false -> has_marker line = true ->
  parse_line st line = (mkParser (bookings st ++ [c]) None, Break).
Proof.
  unfold is_header, has_marker, parse_line. now intros -> -> ->.
Qed.

Lemma parse_line_continuation (bs : list booking) (c : booking) (line : string) :
  is_continuation line = true ->
  parse_line (mkParser bs (Some c)) line =
  (mkParser bs
     (Some (set_Textblock (fold_left extend (accepted [line]) (Textblock c)) c)),
   Next).
Proof.
  unfold is_continuation, is_header, has_marker, parse_line, accepted.
  intros H. apply andb_prop in H as [Hd Hm].
  apply negb_true_iff in Hd, Hm. rewrite Hd, Hm. simpl.
  destruct (String.length (PyStr.strip (PyStr.rstrip line))) as [|[|n]] eqn:E; simpl.
  - now rewrite set_Textblock_same.
  - now rewrite set_Textblock_same.
  - unfold extend. now destruct (PyStr.nonempty (Textblock c)).
Qed.

Lemma accepted_cons (line : string) (lines : list string) :
  accepted (line :: lines) = accepted [line] ++ accepted lines.
Proof.
  unfold accepted. simpl.
  now destruct (String.length (PyStr.strip (PyStr.rstrip line))) as [|[|n]].
Qed.

Lemma parse_loop_continuation (cs : list string) (bs : list booking) (c : booking) :
  forallb is_continuation cs = true ->
  parse_loop cs (mkParser bs (Some c)) =
  (mkParser bs
     (Some (set_Textblock (fold_left extend (accepted cs) (Textblock c)) c)),
   Next).
Proof.
  revert c; induction cs as [|l cs IH]; intros c H; simpl in *.
  - now rewrite set_Textblock_same.
  - apply andb_prop in H as [Hl Hcs].
    rewrite (parse_line_continuation _ _ _ Hl), (IH _ Hcs).
    rewrite (accepted_cons l cs), fold_left_app. reflexivity.
Qed.

Lemma accepted_nonempty (lines : list string) :
  Forall (fun x => PyStr.nonempty x = true) (accepted lines).
Proof.
  unfold accepted. apply List.Forall_forall. intros x Hx.
  apply List.filter_In in Hx as [_ Hx]. now apply nonempty_length.
Qed.

Lemma extend_spaced (xs : list string) (t : string) :
  PyStr.nonempty t = true ->
  fold_left extend xs t = t +:+ spaced xs.
Proof.
  revert t; induction xs as [|x xs IH]; intros t Ht; simpl.
  - now rewrite append_nil_r.
  - unfold extend at 2. rewrite Ht, IH.
    + now rewrite !append_assoc.
    + now apply nonempty_append_l.
Qed.

Lemma extend_join (xs : list string) :
  Forall (fun x => PyStr.nonempty x = true) xs ->
  fold_left extend xs EmptyString = join_spaces xs.
Proof.
  destruct xs as [|x xs]; [reflexivity|]. intros H. simpl.
  apply extend_spaced. now inversion H.
Qed.

(** The closed records are never taken back. *)
Lemma parse_line_grows (st st' : parser) (line : string) (f : flow) :
  parse_line st line = (st', f) -> exists more, close st' = bookings st ++ more.
Proof.
  unfold parse_line, close. intros H.
  destruct (Re.matches DATE_RE (PyStr.rstrip line)).
  - inversion H; subst; simpl. destruct (current st) as [c|].
    + rewrite <- app_assoc. eauto.
    + eauto.
  - destruct (current st) as [c|] eqn:Ec.
    + destruct (Re.search END_MARKER_RE (PyStr.rstrip line)).
      * inversion H; subst; simpl. exists [c]. reflexivity.
      * destruct (String.length (PyStr.strip (PyStr.rstrip line)) <? 2).
        -- inversion H; subst. rewrite Ec. eauto.
        -- destruct (PyStr.nonempty (Textblock c)); inversion H; subst; simpl; eauto.
    + inversion H; subst. rewrite Ec. exists []. now rewrite app_nil_r.
Qed.

Lemma parse_line_keeps (st st' : parser) (line : string) (f : flow) :
  parse_line st line = (st', f) -> exists more, bookings st' = bookings st ++ more.
Proof.
  unfold parse_line. intros H.
  destruct (Re.matches DATE_RE (PyStr.rstrip line)).
  - inversion H; subst; simpl. destruct (current st); eauto using app_nil_r.
  - destruct (current st) as [c|].
    + destruct (Re.search END_MARKER_RE (PyStr.rstrip line)).
      * inversion H; subst; simpl. eauto.
      * destruct (String.length (PyStr.strip (PyStr.rstrip line)) <? 2);
          [|destruct (PyStr.nonempty (Textblock c))];
          inversion H; subst; simpl; exists []; now rewrite app_nil_r.
    + inversion H; subst. exists []. now rewrite app_nil_r.
Qed.

Lemma parse_loop_keeps (lines : list string) (st st' : parser) (f : flow) :
  parse_loop lines st = (st', f) -> exists more, close st' = bookings st ++ more.
Proof.
  revert st; induction lines as [|l lines IH]; intros st H; simpl in H.
  - inversion H; subst. unfold close. destruct (current st'); eauto.
    exists []. now rewrite app_nil_r.
  - destruct (parse_line st l) as [st1 [|]] eqn:E.
    + destruct (parse_line_keeps _ _ _ _ E) as [m1 H1].
      destruct (IH _ H) as [m2 H2]. exists (m1 ++ m2).
      now rewrite H2, H1, app_assoc.
    + inversion H; subst. eapply parse_line_grows; eauto.
Qed.

(** The record opened by [header] and fed the continuation lines [cs]. *)
Lemma parse_loop_record (header : string) (cs : list string) (st : parser) :
  is_header header = true ->
  forallb is_continuation cs = true ->
  parse_loop (header :: cs) st =
  (mkParser (close st)
     (Some (set_Textblock (join_spaces (accepted cs))
              (open_booking (PyStr.rstrip header)))),
   Next).
Proof.
  intros Hh Hcs. simpl. rewrite (parse_line_header _ _ Hh).
  rewrite (parse_loop_continuation _ _ _ Hcs). simpl.
  now rewrite (extend_join _ (accepted_nonempty cs)).
Qed.

(** C2, as amended: the text block of an emitted record is made of the
    accepted continuation lines alone, trimmed and joined with single
    spaces; the header line gives the date, the booking type and the
    amount, and no text.  Whatever was parsed before ([pre], leaving the
    loop in state [st]), the record opened by [header] and followed by the
    continuation lines [cs] is emitted, right after the records known so
    far, once the input ends or a header or marker line follows. *)
Theorem textblock_is_joined_continuation
    (pre : list string) (st : parser) (header : string) (cs post : list string) :
  parse_loop pre start = (st, Next) ->
  is_header header = true ->
  forallb is_continuation cs = true ->
  closes post = true ->
  parse_lines (pre ++ header :: cs ++ post) !! length (close st) =
  Some (set_Textblock (join_spaces (accepted cs))
          (open_booking (PyStr.rstrip header))).
Proof.
  intros Hpre Hh Hcs Hpost. unfold parse_lines. fold start.
  rewrite parse_loop_app, Hpre.
  change (header :: cs ++ post) with ((header :: cs) ++ post).
  rewrite parse_loop_app, (parse_loop_record _ _ _ Hh Hcs).
  set (r := set_Textblock _ _).
  destruct post as [|l post]; simpl.
  - unfold close at 1. simpl. apply list_lookup_middle. reflexivity.
  - destruct (is_header l) eqn:El.
    + rewrite (parse_line_header _ _ El).
      destruct (parse_loop post _) as [st' f] eqn:E.
      destruct (parse_loop_keeps _ _ _ _ E) as [more Hm]. simpl in *.
      rewrite Hm. unfold close at 2. simpl.
      rewrite <- !app_assoc. apply list_lookup_middle. reflexivity.
    + simpl in Hpost. rewrite El in Hpost. simpl in Hpost.
      rewrite (parse_line_marker (mkParser (close st) (Some r)) r l eq_refl El Hpost).
      simpl.
      unfold close at 1. simpl. apply list_lookup_middle. reflexivity.
Qed.

Lemma textblock_is_joined_continuation_witness :
  parse_lines
    (["Kontoauszug"; "01.01.2024 Gehalt 2.000,00"; "Firma"] ++
     "02.01.2024 Lastschrift -10,00" :: ["AMAZON EU SARL"; " x "; "  Ref 123 "] ++
     ["03.01.2024 Miete -700,00"]) !! 1 =
  Some (mkBooking "02.01.2024" "Lastschrift -10,00" "AMAZON EU SARL Ref 123"
          "-10.00" EmptyString None None None).
Proof.
  exact (textblock_is_joined_continuation
           ["Kontoauszug"; "01.01.2024 Gehalt 2.000,00"; "Firma"]
           (mkParser []
              (Some (mkBooking "01.01.2024" "Gehalt 2.000,00" "Firma"
                       EmptyString "2000.00" None None None)))
           "02.01.2024 Lastschrift -10,00"
           ["AMAZON EU SARL"; " x "; "  Ref 123 "]
           ["03.01.2024 Miete -700,00"]
           eq_refl eq_refl eq_refl eq_refl).
Defined.

(** C2, as stated, fails: the remainder of the header line is not part of
    the text block. *)
Lemma header_remainder_not_in_textblock :
  exists b,
    parse_lines ["01.01.2024 Lastschrift -10,00"; "AMAZON EU SARL"] = [b] /\
    Textblock b = "AMAZON EU SARL" /\
    spec_textblock "01.01.2024 Lastschrift -10,00" ["AMAZON EU SARL"] =
      "Lastschrift -10,00 AMAZON EU SARL" /\
    Textblock b <> spec_textblock "01.01.2024 Lastschrift -10,00" ["AMAZON EU SARL"].
Proof.
  eexists. split; [reflexivity|]. split; [reflexivity|]. split; [reflexivity|].
  discriminate.
Qed.

(** C6, as amended: a line that does not start with a date and holds an
    end-of-statement marker, met while a record is open, closes that
    record as it stands and ends the parsing: the marker line and all the
    lines after it leave no trace in the result. *)
Theorem end_marker_stops_parsing
    (pre : list string) (st : parser) (c : booking) (marker : string)
    (post : list string) :
  parse_loop pre start = (st, Next) ->
  current st = Some c ->
  is_header marker = false ->
  has_marker marker = true ->
  parse_lines (pre ++ marker :: post) = bookings st ++ [c] /\
  parse_lines (pre ++ marker :: post) = parse_lines pre.
Proof.
  intros Hpre Hc Hh Hm. unfold parse_lines. fold start.
  rewrite parse_loop_app, Hpre. simpl.
  rewrite (parse_line_marker _ _ _ Hc Hh Hm). simpl.
  unfold close. simpl. now rewrite Hc.
Qed.

Lemma end_marker_stops_parsing_witness :
  parse_lines (["01.01.2024 ... -10,00"; "continuation"] ++
               "Kontostand am ..." :: []) =
  [] ++ [mkBooking "01.01.2024" "... -10,00" "continuation" "-10.00"
           EmptyString None None None].
Proof.
  exact (proj1 (end_marker_stops_parsing
                  ["01.01.2024 ... -10,00"; "continuation"]
                  (mkParser []
                     (Some (mkBooking "01.01.2024" "... -10,00" "continuation"
                              "-10.00" EmptyString None None None)))
                  _ "Kontostand am ..." [] eq_refl eq_refl eq_refl eq_refl)).
Defined.

(** C6, as stated, fails: a line with a marker that starts with a date,
    met while a record is open, opens the next record, and the lines after
    it are parsed. *)
Lemma dated_marker_line_opens_a_record :
  has_marker "02.01.2024 Kontostand am 02.01.2024 5,00" = true /\
  current (fst (parse_loop ["01.01.2024 Miete -10,00"] start)) <> None /\
  exists b1 b2,
    parse_lines ["01.01.2024 Miete -10,00";
                 "02.01.2024 Kontostand am 02.01.2024 5,00";
                 "Nachtrag"] = [b1; b2] /\
    Datum b2 = "02.01.2024" /\ Textblock b2 = "Nachtrag".
Proof.
  split; [reflexivity|]. split; [discriminate|].
  do 2 eexists. split; [reflexivity|]. split; reflexivity.
Qed.

(** C4: the last amount of the header line is taken, a minus sign makes it
    a debit, and the separators are normalized; but the stored debit keeps
    the minus sign, and [format_amount] puts a second one in front. *)
Theorem debit_keeps_its_sign :
  normalize_amount "1.234,56" = "1234.56" /\
  Re.findall AMOUNT_RE "Lastschrift 1.234,56 -12,00" = ["1.234,56"; "-12,00"] /\
  normalize_amount "-12,00" = "-12.00" /\
  exists b,
    parse_lines ["01.01.2024 Lastschrift 1.234,56 -12,00"] = [b] /\
    Soll b = "-12.00" /\ Haben b = EmptyString /\
    format_amount b = "--12.00 EUR".
Proof.
  repeat split. eexists. repeat split.
Qed.

Lemma open_booking_exclusive (line : string) :
  exclusive_amounts (open_booking line).
Proof.
  unfold exclusive_amounts, open_booking. simpl.
  destruct (Re.findall AMOUNT_RE _); [now left|].
  destruct (PyStr.contains "-" _); [now right | now left].
Qed.

Lemma parse_line_exclusive (st st' : parser) (line : string) (f : flow) :
  parser_exclusive st -> parse_line st line = (st', f) -> parser_exclusive st'.
Proof.
  unfold parser_exclusive, parse_line, close. intros Hst H.
  destruct (Re.matches DATE_RE (PyStr.rstrip line)).
  - inversion H; subst; simpl.
    apply Forall_app. split; [exact Hst|].
    constructor; [apply open_booking_exclusive | constructor].
  - destruct (current st) as [c|] eqn:Ec.
    + destruct (Re.search END_MARKER_RE (PyStr.rstrip line)).
      * inversion H; subst; simpl. exact Hst.
      * destruct (String.length (PyStr.strip (PyStr.rstrip line)) <? 2);
          [|destruct (PyStr.nonempty (Textblock c))];
          inversion H; subst; simpl; rewrite ?Ec; try exact Hst.
        all: apply Forall_app in Hst as [Hb Hc]; apply Forall_app; split; [exact Hb|].
        all: constructor; [|constructor].
        all: apply Forall_inv in Hc; exact Hc.
    + inversion H; subst. now rewrite Ec.
Qed.

Lemma parse_loop_exclusive (lines : list string) (st st' : parser) (f : flow) :
  parser_exclusive st -> parse_loop lines st = (st', f) -> parser_exclusive st'.
Proof.
  revert st; induction lines as [|l lines IH]; intros st Hst H; simpl in H.
  - now inversion H; subst.
  - destruct (parse_line st l) as [st1 [|]] eqn:E.
    + eapply IH; [|exact H]. eapply parse_line_exclusive; eauto.
    + inversion H; subst. eapply parse_line_exclusive; eauto.
Qed.

Lemma parse_lines_exclusive (lines : list string) :
  Forall exclusive_amounts (parse_lines lines).
Proof.
  unfold parse_lines.
  destruct (parse_loop lines (mkParser [] None)) as [st f] eqn:E.
  eapply (parse_loop_exclusive lines _ st f); [|exact E].
  unfold parser_exclusive, close. simpl. constructor.
Qed.

(** ** The enricher *)

Section EnricherFacts.

Variable ratio : string -> string -> Q.

Lemma prompt_booking_amounts (b : booking) (w : world) :
  same_amounts b (prompt_booking ratio b w).1.1.
Proof.
  unfold prompt_booking, same_amounts.
  destruct (ask_user_for_split ratio b w) as [[[[name rest] key]|e] w']; simpl.
  - destruct (truthy name); simpl; [|easy].
    now destruct (save_reference _ _ _ w').
  - easy.
Qed.

Lemma enrich_booking_amounts (interactive : bool) (b : booking) (w : world) :
  same_amounts b (enrich_booking ratio interactive b w).1.1.
Proof.
  unfold enrich_booking.
  destruct (load_reference_db _ _) as [rules|e]; [|easy].
  destruct (apply_split_rule _ rules) as [label rest].
  destruct (truthy label); [easy|].
  destruct interactive; [apply prompt_booking_amounts | easy].
Qed.

Lemma enrich_bookings_amounts (bs : list booking) (interactive : bool) (w : world) :
  Forall2 same_amounts bs (enrich_bookings ratio bs interactive w).1.1.
Proof.
  revert w; induction bs as [|b bs IH]; intros w; simpl; [constructor|].
  pose proof (enrich_booking_amounts interactive b w) as Hb.
  destruct (enrich_booking ratio interactive b w) as [[b' [[]|e]] w']; simpl in *.
  - specialize (IH w').
    destruct (enrich_bookings ratio bs interactive w') as [[bs' r] w'']; simpl in *.
    now constructor.
  - constructor; [exact Hb|]. clear. induction bs; constructor; easy.
Qed.

Lemma enrich_bookings_exclusive (bs : list booking) (interactive : bool) (w : world) :
  Forall exclusive_amounts bs ->
  Forall exclusive_amounts (enrich_bookings ratio bs interactive w).1.1.
Proof.
  intros H. pose proof (enrich_bookings_amounts bs interactive w) as H2.
  induction H2 as [|b b' bs bs' [Hs Hh] _ IH]; [constructor|].
  inversion H; subst. constructor; [|now apply IH].
  unfold exclusive_amounts in *. now rewrite Hs, Hh.
Qed.

Lemma set_source_exclusive (name : string) (bs : list booking) :
  Forall exclusive_amounts bs -> Forall exclusive_amounts (set_source name bs).
Proof.
  unfold set_source. induction 1; simpl; constructor; auto.
Qed.

(** C5: the records of the parser have at most one amount filled, and
    they keep that through the enricher, however it ends, and through the
    tagging with the source file, in either order. *)
Theorem amounts_stay_exclusive
    (lines : list string) (interactive : bool) (w : world) (name : string) :
  Forall exclusive_amounts (parse_lines lines) /\
  Forall exclusive_amounts
    (enrich_bookings ratio (parse_lines lines) interactive w).1.1 /\
  Forall exclusive_amounts
    (set_source name (enrich_bookings ratio (parse_lines lines) interactive w).1.1) /\
  Forall exclusive_amounts
    (enrich_bookings ratio (set_source name (parse_lines lines)) interactive w).1.1 /\
  Forall2 same_amounts (parse_lines lines)
    (enrich_bookings ratio (parse_lines lines) interactive w).1.1.
Proof.
  pose proof (parse_lines_exclusive lines) as H.
  repeat split; auto using enrich_bookings_exclusive, set_source_exclusive,
    enrich_bookings_amounts.
Qed.

(** *** Rule application *)

Lemma apply_split_rule_none (text : string) (rules : Json.dict) :
  no_rule_matches text rules -> apply_split_rule text rules = (None, None).
Proof.
  unfold no_rule_matches. induction rules as [|[k v] rules IH]; simpl; [easy|].
  intros H. inversion H; subst. rewrite H2. now apply IH.
Qed.

(** The first key, in insertion order, that occurs in the text decides. *)
Lemma apply_split_rule_first
    (text : string) (pre : Json.dict) (key value : string) (post : Json.dict) :
  no_rule_matches text pre ->
  PyStr.contains key text = true ->
  apply_split_rule text (pre ++ (key, value) :: post) =
  (Some value, Some (PyStr.strip (PyStr.drop (String.length key) text))).
Proof.
  unfold no_rule_matches. intros Hpre Hkey.
  induction pre as [|[k v] pre IH]; simpl.
  - now rewrite Hkey.
  - inversion Hpre; subst. rewrite H1. now apply IH.
Qed.

(** Where the deciding key stands at the start of the text, the
    description is the text after the key, as the specification has it. *)
Lemma description_after_prefix_key (key text : string) :
  PyStr.startswith key text = true ->
  Some (clean_description
          (Some (PyStr.strip (PyStr.drop (String.length key) text)))) =
  spec_description key text.
Proof.
  intros H. unfold spec_description. now rewrite (startswith_find _ _ H).
Qed.

Lemma enrich_booking_unlabeled
    (interactive : bool) (b : booking) (w : world) (rules : Json.dict) :
  load_reference_db "split_rules.json" (files w) = Ok rules ->
  truthy (apply_split_rule (PyStr.strip (Textblock b)) rules).1 = false ->
  enrich_booking ratio interactive b w =
  if interactive then prompt_booking ratio b w else (b, Ok tt, w).
Proof.
  unfold enrich_booking. intros -> H.
  destruct (apply_split_rule _ rules) as [label rest]. simpl in H.
  now rewrite H.
Qed.

(** C7, as amended: with interactive mode disabled, a record whose text
    block matches no rule is left as it is: the enricher sets neither its
    name nor its description, and the rule document is not touched. *)
Theorem unmatched_record_stays_unlabeled
    (bs : list booking) (w : world) (rules : Json.dict) :
  load_reference_db "split_rules.json" (files w) = Ok rules ->
  Forall (fun b => no_rule_matches (PyStr.strip (Textblock b)) rules) bs ->
  enrich_bookings ratio bs false w = (bs, Ok tt, w).
Proof.
  intros Hload H. induction H as [|b bs Hb _ IH]; simpl; [reflexivity|].
  rewrite (enrich_booking_unlabeled false b w rules Hload).
  - now rewrite IH.
  - now rewrite (apply_split_rule_none _ _ Hb).
Qed.

(** C10, as amended: an entry with the empty display name that is the
    first entry, in insertion order, whose key occurs in the text makes
    rule application return the empty label, and the enricher goes on as
    it does without a match: to the prompt in interactive mode, and
    otherwise it leaves the record as it is. *)
Theorem empty_label_is_no_match
    (interactive : bool) (b : booking) (w : world)
    (pre : Json.dict) (key : string) (post : Json.dict) :
  load_reference_db "split_rules.json" (files w) =
    Ok (pre ++ (key, EmptyString) :: post) ->
  no_rule_matches (PyStr.strip (Textblock b)) pre ->
  PyStr.contains key (PyStr.strip (Textblock b)) = true ->
  (apply_split_rule (PyStr.strip (Textblock b))
     (pre ++ (key, EmptyString) :: post)).1 = Some EmptyString /\
  enrich_booking ratio interactive b w =
  if interactive then prompt_booking ratio b w else (b, Ok tt, w).
Proof.
  intros Hload Hpre Hkey.
  pose proof (apply_split_rule_first _ pre key EmptyString post Hpre Hkey) as E.
  split; [now rewrite E|].
  apply (enrich_booking_unlabeled _ _ _ _ Hload). now rewrite E.
Qed.

End EnricherFacts.

(** *** Concrete runs *)

Lemma unmatched_record_stays_unlabeled_witness :
  enrich_bookings (fun _ _ => 0%Q) [debit_of "AMAZON EU SARL"] false
    (mkWorld (store_of [("PAYPAL", "PayPal")]) []) =
  ([debit_of "AMAZON EU SARL"], Ok tt,
   mkWorld (store_of [("PAYPAL", "PayPal")]) []).
Proof.
  apply (unmatched_record_stays_unlabeled (fun _ _ => 0%Q)
           [debit_of "AMAZON EU SARL"]
           (mkWorld (store_of [("PAYPAL", "PayPal")]) [])
           [("PAYPAL", "PayPal")]).
  - reflexivity.
  - repeat constructor.
Defined.

(** C7, as stated, fails: with interactive mode disabled the record gets
    no name at all, not its text block, and no description. *)
Lemma unlabeled_record_has_no_name :
  exists b,
    (enrich_bookings (fun _ _ => 0%Q) [debit_of "AMAZON EU SARL"] false
       (mkWorld ∅ [])).1.1 = [b] /\
    Name b = None /\ Beschreibung b = None /\
    Name b <> Some (Textblock b) /\ Beschreibung b <> Some EmptyString.
Proof.
  eexists. split; [reflexivity|]. repeat split; discriminate.
Qed.

Lemma empty_label_is_no_match_witness :
  (apply_split_rule (PyStr.strip (Textblock (debit_of "AMAZON EU SARL")))
     ([("PAYPAL", "PayPal")] ++ ("AMAZON", EmptyString) :: [])).1 =
    Some EmptyString /\
  enrich_booking (fun _ _ => 0%Q) false (debit_of "AMAZON EU SARL")
    (mkWorld (store_of [("PAYPAL", "PayPal"); ("AMAZON", EmptyString)]) []) =
  (debit_of "AMAZON EU SARL", Ok tt,
   mkWorld (store_of [("PAYPAL", "PayPal"); ("AMAZON", EmptyString)]) []).
Proof.
  apply (empty_label_is_no_match (fun _ _ => 0%Q) false
           (debit_of "AMAZON EU SARL")
           (mkWorld (store_of [("PAYPAL", "PayPal"); ("AMAZON", EmptyString)]) [])
           [("PAYPAL", "PayPal")] "AMAZON" []).
  - reflexivity.
  - repeat constructor.
  - reflexivity.
Defined.

(** What [write_csv] makes of a record the enricher left without name and
    description. *)
Lemma csv_row_unlabeled (b : booking) :
  Name b = None -> Beschreibung b = None ->
  csv_row b = [Datum b; Buchungsart b; EmptyString; EmptyString; Soll b; Haben b].
Proof. unfold csv_row. now intros -> ->. Qed.

(** C10, as stated, fails: the text holds the key of an entry with the
    empty display name, but an earlier entry matches too, so rule
    application returns that entry's label and the record is labelled. *)
Lemma earlier_rule_decides :
  let rules := [("AMAZON", "Amazon"); ("AMAZON EU", EmptyString)] in
  let text := "AMAZON EU SARL" in
  In ("AMAZON EU", EmptyString) rules /\
  PyStr.contains "AMAZON EU" text = true /\
  (apply_split_rule text rules).1 = Some "Amazon" /\
  (apply_split_rule text rules).1 <> Some EmptyString /\
  (enrich_bookings (fun _ _ => 0%Q) [debit_of text] false
     (mkWorld (store_of rules) [])).1.1 =
  [set_Beschreibung "EU SARL" (set_Name "Amazon" (debit_of text))].
Proof.
  simpl. repeat split; try reflexivity.
  - right. now left.
  - discriminate.
Qed.

(** C1: on the example of the specification the rule gives the name and
    the description that the claim states; with a key that occurs later in
    the text, the description is not the text after the occurrence but the
    text after the first [len(key)] characters. *)
Theorem description_cut_at_key_length (ratio : string -> string -> Q) :
  apply_split_rule "AMAZON EU SARL" [("AMAZON", "Amazon")] =
    (Some "Amazon", Some "EU SARL") /\
  PyStr.contains "EU" "AMAZON EU SARL" = true /\
  spec_description "EU" "AMAZON EU SARL" = Some "SARL" /\
  apply_split_rule "AMAZON EU SARL" [("EU", "Europe")] =
    (Some "Europe", Some "AZON EU SARL") /\
  enrich_bookings ratio [debit_of "AMAZON EU SARL"] true
    (mkWorld (store_of [("EU", "Europe")]) []) =
  ([set_Beschreibung "AZON EU SARL" (set_Name "Europe" (debit_of "AMAZON EU SARL"))],
   Ok tt, mkWorld (store_of [("EU", "Europe")]) []).
Proof.
  repeat split.
Qed.

(** C3: after the prompt the record is named by the trigger key, not by
    the display name the operator gave; the description and the new rule
    are as the claim states, and the next record with the same text gets
    the display name from that rule. *)
Theorem prompted_record_named_by_key (ratio : string -> string -> Q) :
  let b := debit_of "AMAZON EU SARL" in
  let run := enrich_bookings ratio [b; b] true
               (mkWorld ∅ ["AMAZON"; "0"; "Amazon"]) in
  run.1.1 = [set_Beschreibung "EU SARL" (set_Name "AMAZON" b);
             set_Beschreibung "EU SARL" (set_Name "Amazon" b)] /\
  run.1.2 = Ok tt /\
  load_reference_db "split_rules.json" (files run.2) = Ok [("AMAZON", "Amazon")] /\
  stdin run.2 = [].
Proof.
  repeat split.
Qed.

(** The same on the other way to a display name: the operator picks a
    known one from the full list. *)
Lemma picked_name_not_stored_in_record :
  let b := debit_of "PP SHOP 123" in
  let run := enrich_bookings (fun _ _ => 0%Q) [b] true
               (mkWorld (store_of [("PAYPAL", "PayPal")]) ["PP"; "0"; "1"]) in
  run.1.1 = [set_Beschreibung "SHOP 123" (set_Name "PP" b)] /\
  load_reference_db "split_rules.json" (files run.2) =
    Ok [("PAYPAL", "PayPal"); ("PP", "PayPal")].
Proof.
  split; reflexivity.
Qed.

(** ** The fuzzy shortlist *)

Section Shortlist.

Variable ratio : string -> string -> Q.

Lemma insert_desc_Forall (P : string * Q -> Prop) (x : string * Q)
    (l : list (string * Q)) :
  P x -> Forall P l -> Forall P (insert_desc x l).
Proof.
  intros Hx Hl. induction Hl as [|y l Hy Hl IH]; simpl.
  - now constructor.
  - destruct (Qle_bool (snd y) (snd x)); repeat constructor; auto.
Qed.

Lemma insert_desc_sorted (x : string * Q) (l : list (string * Q)) :
  StronglySorted ranks_before l -> StronglySorted ranks_before (insert_desc x l).
Proof.
  induction 1 as [|y l Hl IH Hy]; simpl.
  - repeat constructor.
  - destruct (Qle_bool (snd y) (snd x)) eqn:E.
    + apply Qle_bool_iff in E.
      constructor; [now constructor|].
      constructor; [exact E|].
      eapply Forall_impl; [exact Hy|].
      unfold ranks_before. intros z Hz. simpl in Hz. now apply Qle_trans with (snd y).
    + constructor; [exact IH|].
      apply insert_desc_Forall; [|exact Hy].
      unfold ranks_before.
      destruct (Qlt_le_dec (snd y) (snd x)) as [Hlt|Hle]; [|exact Hle].
      apply Qlt_le_weak, Qle_bool_iff in Hlt. congruence.
Qed.

Lemma sort_desc_Forall (P : string * Q -> Prop) (l : list (string * Q)) :
  Forall P l -> Forall P (sort_desc l).
Proof.
  induction 1; simpl; [constructor | now apply insert_desc_Forall].
Qed.

Lemma sort_desc_sorted (l : list (string * Q)) :
  StronglySorted ranks_before (sort_desc l).
Proof.
  induction l; simpl; [constructor | now apply insert_desc_sorted].
Qed.

Lemma take_sorted (n : nat) (l : list (string * Q)) :
  StronglySorted ranks_before l -> StronglySorted ranks_before (take n l).
Proof.
  intros H. revert n. induction H as [|x l Hl IH Hx]; intros [|n]; simpl;
    try constructor; auto using Forall_take.
Qed.

Lemma score_names_shortlisted (text : string) (names : list string) :
  Forall (shortlisted ratio text names) (score_names ratio text (4 # 10) names).
Proof.
  induction names as [|n names IH]; simpl; [constructor|].
  assert (Forall (shortlisted ratio text (n :: names))
            (score_names ratio text (4 # 10) names)) as IH'.
  { eapply Forall_impl; [exact IH|].
    intros e (Hin & Hs & Ht). repeat split; auto. now right. }
  destruct (Qle_bool (4 # 10) (fuzzy_score ratio text n)) eqn:E; [|exact IH'].
  constructor; [|exact IH'].
  repeat split; simpl; [now left | now apply Qle_bool_iff].
Qed.

(** C9: the shortlist holds only known names with a score of at least
    0.4, each with its score, the greatest score first, and at most five
    of them. *)
Theorem shortlist_is_ranked
    (text : string) (fs : gmap string string) (names : list string) :
  load_declarations "split_rules.json" fs = Ok names ->
  exists shortlist,
    get_fuzzy_declarations ratio text fs = Ok shortlist /\
    Forall (shortlisted ratio text names) shortlist /\
    StronglySorted ranks_before shortlist /\
    length shortlist <= 5.
Proof.
  intros Hload. unfold get_fuzzy_declarations, get_fuzzy_declarations_with.
  rewrite Hload. eexists. split; [reflexivity|]. repeat split.
  - apply Forall_take, sort_desc_Forall, score_names_shortlisted.
  - apply take_sorted, sort_desc_sorted.
  - rewrite length_take. lia.
Qed.

End Shortlist.

Lemma shortlist_is_ranked_witness :
  exists shortlist,
    get_fuzzy_declarations positional "amazon eu"
      (store_of [("a", "Amazon"); ("b", "Amazing"); ("c", "PayPal"); ("d", "Amazon EU");
                 ("e", "Amazon.de"); ("f", "amazon eu sarl"); ("g", "Amaz")]) =
      Ok shortlist /\
    Forall (shortlisted positional "amazon eu"
              ["Amaz"; "Amazing"; "Amazon"; "Amazon EU"; "Amazon.de"; "PayPal";
               "amazon eu sarl"]) shortlist /\
    StronglySorted ranks_before shortlist /\
    length shortlist <= 5.
Proof.
  apply (shortlist_is_ranked positional "amazon eu"
           (store_of [("a", "Amazon"); ("b", "Amazing"); ("c", "PayPal");
                      ("d", "Amazon EU"); ("e", "Amazon.de");
                      ("f", "amazon eu sarl"); ("g", "Amaz")])).
  reflexivity.
Defined.


(** ** The rule document *)

Lemma lex_string_escape_char (c : ascii) (t : string) :
  Json.lex_string (Json.escape_char c +:+ t) = Json.push c (Json.lex_string t).
Proof.
  destruct c as [[] [] [] [] [] [] [] []]; reflexivity.
Qed.

Lemma lex_string_escape (s rest : string) :
  Json.lex_string (Json.escape s +:+ String Json.dquote rest) =
  option_map (cons (Json.Str s)) (Json.lex rest).
Proof.
  induction s as [|c s IH].
  - reflexivity.
  - change (Json.escape (String c s)) with (Json.escape_char c +:+ Json.escape s).
    rewrite append_assoc, lex_string_escape_char, IH.
    now destruct (Json.lex rest).
Qed.

Lemma lex_encode_string (s rest : string) :
  Json.lex (Json.encode_string s +:+ rest) =
  option_map (cons (Json.Str s)) (Json.lex rest).
Proof.
  unfold Json.encode_string.
  change (Json.lex (String Json.dquote ?x +:+ rest))
    with (Json.lex_string (x +:+ rest)).
  rewrite append_assoc.
  change (String Json.dquote EmptyString +:+ rest) with (String Json.dquote rest).
  apply lex_string_escape.
Qed.

Lemma lex_member (kv : string * string) (rest : string) :
  Json.lex (Json.member kv +:+ rest) =
  option_map (fun ts => Json.Str (fst kv) :: Json.Colon :: Json.Str (snd kv) :: ts)
    (Json.lex rest).
Proof.
  unfold Json.member. rewrite !append_assoc, lex_encode_string.
  change (Json.lex (": " +:+ ?x)) with (option_map (cons Json.Colon) (Json.lex x)).
  rewrite lex_encode_string. now destruct (Json.lex rest).
Qed.

Lemma lex_members (kv : string * string) (db : Json.dict) :
  Json.lex (Json.members (kv :: db) +:+ String Json.newline "}") =
  Some (member_tokens (kv :: db) ++ [Json.RBrace]).
Proof.
  revert kv; induction db as [|kv' db IH]; intros [k v].
  - simpl Json.members. now rewrite lex_member.
  - change (Json.members ((k, v) :: kv' :: db))
      with (Json.member (k, v) +:+ "," +:+ Json.newline_indent +:+
            Json.members (kv' :: db)).
    rewrite !append_assoc, lex_member.
    change (Json.lex ("," +:+ Json.newline_indent +:+ ?x))
      with (option_map (cons Json.Comma) (Json.lex x)).
    now rewrite IH.
Qed.

Lemma parse_member_tokens (kv : string * string) (db : Json.dict) :
  Json.parse_members (member_tokens (kv :: db) ++ [Json.RBrace]) = Some (kv :: db).
Proof.
  revert kv; induction db as [|kv' db IH]; intros [k v].
  - reflexivity.
  - change (member_tokens ((k, v) :: kv' :: db))
      with (Json.Str k :: Json.Colon :: Json.Str v :: Json.Comma ::
            member_tokens (kv' :: db)).
    simpl. simpl in IH. now rewrite IH.
Qed.

Lemma upsert_fresh (key value : string) (db : Json.dict) :
  ~ In key (Json.keys db) -> Json.upsert key value db = db ++ [(key, value)].
Proof.
  induction db as [|[k v] db IH]; simpl; intros H; [reflexivity|].
  destruct (String.eqb_spec key k) as [->|Hne]; [tauto|].
  rewrite IH; tauto.
Qed.

Lemma of_pairs_from (ps acc : Json.dict) :
  List.NoDup (Json.keys (acc ++ ps)) ->
  fold_left (fun db kv => Json.upsert (fst kv) (snd kv) db) ps acc = acc ++ ps.
Proof.
  revert acc; induction ps as [|[k v] ps IH]; intros acc H; simpl.
  - now rewrite app_nil_r.
  - rewrite upsert_fresh.
    + rewrite IH; rewrite <- app_assoc; [reflexivity | exact H].
    + unfold Json.keys in H. rewrite map_app in H. simpl in H.
      apply List.NoDup_remove_2 in H. intros Hin. apply H.
      apply List.in_or_app. now left.
Qed.

Lemma of_pairs_nodup (db : Json.dict) :
  List.NoDup (Json.keys db) -> Json.of_pairs db = db.
Proof. intros H. unfold Json.of_pairs. now rewrite of_pairs_from. Qed.

(** Writing then reading gives the mapping back. *)
Lemma loads_dumps (db : Json.dict) :
  List.NoDup (Json.keys db) -> Json.loads (Json.dumps db) = Some db.
Proof.
  intros H. destruct db as [|kv db]; [reflexivity|].
  unfold Json.loads, Json.dumps.
  change (Json.lex ("{" +:+ Json.newline_indent +:+ ?x))
    with (option_map (cons Json.LBrace) (Json.lex x)).
  rewrite lex_members. unfold option_map at 1. cbv beta iota.
  assert (Json.parse_object
            (Json.LBrace :: member_tokens (kv :: db) ++ [Json.RBrace]) =
          Json.parse_members (member_tokens (kv :: db) ++ [Json.RBrace])) as ->.
  { destruct kv as [k v]. now destruct db as [|[] ?]. }
  rewrite parse_member_tokens. simpl. now rewrite of_pairs_nodup.
Qed.

Lemma in_keys_upsert (x key value : string) (db : Json.dict) :
  In x (Json.keys (Json.upsert key value db)) -> x = key \/ In x (Json.keys db).
Proof.
  induction db as [|[k v] db IH]; simpl.
  - intros [->|[]]. now left.
  - destruct (String.eqb key k); simpl; intros [->|H]; auto.
    destruct (IH H); auto.
Qed.

Lemma upsert_nodup (key value : string) (db : Json.dict) :
  List.NoDup (Json.keys db) -> List.NoDup (Json.keys (Json.upsert key value db)).
Proof.
  induction db as [|[k v] db IH]; simpl; intros H.
  - repeat constructor. intros [].
  - apply List.NoDup_cons_iff in H as [Hk Hdb].
    destruct (String.eqb_spec key k) as [->|Hne]; simpl.
    + now apply List.NoDup_cons_iff.
    + apply List.NoDup_cons_iff. split; [|now apply IH].
      intros Hin. apply in_keys_upsert in Hin as [->|Hin]; tauto.
Qed.

Lemma of_pairs_keys_nodup (ps : list (string * string)) :
  List.NoDup (Json.keys (Json.of_pairs ps)).
Proof.
  unfold Json.of_pairs.
  assert (forall acc, List.NoDup (Json.keys acc) ->
            List.NoDup (Json.keys
              (fold_left (fun db kv => Json.upsert (fst kv) (snd kv) db) ps acc))) as H.
  { induction ps as [|kv ps IH]; intros acc Hacc; simpl; [exact Hacc|].
    now apply IH, upsert_nodup. }
  apply H. constructor.
Qed.

Lemma load_reference_db_nodup (path : string) (fs : gmap string string)
    (db : Json.dict) :
  load_reference_db path fs = Ok db -> List.NoDup (Json.keys db).
Proof.
  unfold load_reference_db.
  destruct (fs !! path) as [text|]; [|intros [= <-]; constructor].
  destruct (Json.loads text) as [db'|] eqn:E;
    [|destruct (Json.rejects text); discriminate].
  intros [= <-]. unfold Json.loads in E.
  destruct (Json.lex text) as [ts|]; [|discriminate].
  destruct (Json.parse_object ts) as [ps|]; [|discriminate].
  simpl in E. injection E as <-. apply of_pairs_keys_nodup.
Qed.

(** Writing text that UTF-8 can encode. *)
Lemma utf8_plain (s : string) : utf8 (plain s) = Some s.
Proof. induction s as [|c s IH]; simpl; [reflexivity | now rewrite IH]. Qed.

Lemma utf8_Some (t : utext) (s : string) : utf8 t = Some s -> t = plain s.
Proof.
  revert s; induction t as [|[a|a] t IH]; simpl; intros s.
  - now intros [= <-].
  - destruct (utf8 t) as [s'|]; [|discriminate]. simpl. intros [= <-].
    simpl. now rewrite (IH s' eq_refl).
  - discriminate.
Qed.

Lemma utext_eqb_plain (a b : string) : utext_eqb (plain a) (plain b) = String.eqb a b.
Proof.
  revert b; induction a as [|x a IH]; intros [|y b]; simpl; try reflexivity.
  now rewrite IH.
Qed.

Lemma uupsert_plain (k v : string) (db : Json.dict) :
  uupsert (plain k) (plain v) (lift db) = lift (Json.upsert k v db).
Proof.
  induction db as [|[k' v'] db IH]; simpl; [reflexivity|].
  rewrite utext_eqb_plain. destruct (String.eqb k k'); simpl; [reflexivity|].
  now rewrite IH.
Qed.

Lemma write_member_chunks (db : Json.dict) :
  forall (kv : string * string) (written : string) (rest : list (option string)),
    write_chunks written (member_chunks true (lift (kv :: db)) ++ rest) =
    write_chunks (written +:+ Json.members (kv :: db)) rest.
Proof.
  induction db as [|kv' db IH]; intros [k v] written rest.
  - change (member_chunks true (lift [(k, v)]) ++ rest)
      with (string_chunk (plain k) :: Some ": " :: string_chunk (plain v) :: rest).
    unfold string_chunk. rewrite !utf8_plain.
    cbn [option_map write_chunks].
    change (Json.members [(k, v)]) with (Json.member (k, v)).
    unfold Json.member. cbn [fst snd]. now rewrite !append_assoc.
  - change (member_chunks true (lift ((k, v) :: kv' :: db)) ++ rest)
      with (string_chunk (plain k) :: Some ": " :: string_chunk (plain v) ::
            Some ("," +:+ Json.newline_indent) ::
            (member_chunks true (lift (kv' :: db)) ++ rest)).
    unfold string_chunk. rewrite !utf8_plain.
    cbn [option_map write_chunks]. rewrite IH.
    change (Json.members ((k, v) :: kv' :: db))
      with (Json.member (k, v) +:+ "," +:+ Json.newline_indent +:+
            Json.members (kv' :: db)).
    unfold Json.member. cbn [fst snd]. now rewrite !append_assoc.
Qed.

Lemma write_dump_chunks (db : Json.dict) :
  write_chunks EmptyString (dump_chunks (lift db)) = (Json.dumps db, true).
Proof.
  destruct db as [|kv db]; [reflexivity|].
  change (dump_chunks (lift (kv :: db)))
    with (Some "{" :: Some Json.newline_indent ::
          (member_chunks true (lift (kv :: db)) ++
           [Some (String Json.newline EmptyString); Some "}"])).
  cbn [write_chunks]. rewrite write_member_chunks. cbn [write_chunks].
  unfold Json.dumps. now rewrite !append_assoc.
Qed.

(** [save_reference] on a key and a value over the alphabet. *)
Lemma save_reference_plain (k v path : string) (w : world) (db : Json.dict) :
  load_reference_db path (files w) = Ok db ->
  save_reference (plain k) (plain v) path w =
  (Ok tt,
   mkWorld (<[path := Json.dumps (Json.upsert k v db)]> (files w)) (stdin w)).
Proof.
  unfold save_reference. intros ->.
  now rewrite uupsert_plain, write_dump_chunks.
Qed.

(** What the upsert does to the mapping. *)
Lemma lookup_upsert_same (key value : string) (db : Json.dict) :
  lookup_key key (Json.upsert key value db) = Some value.
Proof.
  induction db as [|[k v] db IH]; simpl.
  - now rewrite String.eqb_refl.
  - destruct (String.eqb key k) eqn:E; simpl; now rewrite E.
Qed.

Lemma lookup_upsert_other (other key value : string) (db : Json.dict) :
  other <> key ->
  lookup_key other (Json.upsert key value db) = lookup_key other db.
Proof.
  intros Hne. induction db as [|[k v] db IH]; simpl.
  - apply String.eqb_neq in Hne. now rewrite Hne.
  - destruct (String.eqb_spec key k) as [->|Hk]; simpl.
    + apply String.eqb_neq in Hne. now rewrite Hne.
    + now rewrite IH.
Qed.




(** * Further properties *)

(** ** More on strings *)

Lemma length_lstrip_by (p : ascii -> bool) (s : string) :
  String.length (PyStr.lstrip_by p s) <= String.length s.
Proof.
  induction s as [|c s IH]; simpl; [lia|]. destruct (p c); simpl; lia.
Qed.

Lemma length_rstrip_by (p : ascii -> bool) (s : string) :
  String.length (PyStr.rstrip_by p s) <= String.length s.
Proof.
  induction s as [|c s IH]; simpl; [lia|].
  destruct (PyStr.rstrip_by p s); [destruct (p c)|]; simpl in *; lia.
Qed.

Lemma str_length_take (n : nat) (s : string) :
  String.length (PyStr.take n s) <= n.
Proof.
  revert s; induction n as [|n IH]; intros [|c s]; simpl; try lia.
  specialize (IH s). lia.
Qed.

Lemma str_take_drop (n : nat) (s : string) :
  PyStr.take n s +:+ PyStr.drop n s = s.
Proof.
  revert s; induction n as [|n IH]; intros [|c s]; simpl; try reflexivity.
  now rewrite IH.
Qed.

Lemma lstrip_by_twice (p : ascii -> bool) (s : string) :
  PyStr.lstrip_by p (PyStr.lstrip_by p s) = PyStr.lstrip_by p s.
Proof.
  induction s as [|c s IH]; simpl; [reflexivity|].
  destruct (p c) eqn:E; [exact IH|]. simpl. now rewrite E.
Qed.

Lemma rstrip_by_twice (p : ascii -> bool) (s : string) :
  PyStr.rstrip_by p (PyStr.rstrip_by p s) = PyStr.rstrip_by p s.
Proof.
  induction s as [|c s IH]; simpl; [reflexivity|].
  destruct (PyStr.rstrip_by p s) as [|d r] eqn:E.
  - destruct (p c) eqn:Ec; simpl; [reflexivity | now rewrite Ec].
  - change (PyStr.rstrip_by p (String c (String d r)))
      with (match PyStr.rstrip_by p (String d r) with
            | EmptyString => if p c then EmptyString else String c EmptyString
            | String a x => String c (String a x)
            end).
    now rewrite IH.
Qed.

Lemma rstrip_lstrip_by (p : ascii -> bool) (s : string) :
  PyStr.rstrip_by p (PyStr.lstrip_by p s) = PyStr.lstrip_by p (PyStr.rstrip_by p s).
Proof.
  induction s as [|c s IH]; [reflexivity|].
  change (PyStr.lstrip_by p (String c s))
    with (if p c then PyStr.lstrip_by p s else String c s).
  change (PyStr.rstrip_by p (String c s))
    with (match PyStr.rstrip_by p s with
          | EmptyString => if p c then EmptyString else String c EmptyString
          | String a x => String c (String a x)
          end).
  destruct (p c) eqn:Ec.
  - rewrite IH. destruct (PyStr.rstrip_by p s) as [|d r]; [reflexivity|].
    simpl. now rewrite Ec.
  - change (PyStr.rstrip_by p (String c s))
      with (match PyStr.rstrip_by p s with
            | EmptyString => if p c then EmptyString else String c EmptyString
            | String a x => String c (String a x)
            end).
    rewrite Ec. destruct (PyStr.rstrip_by p s); simpl; now rewrite Ec.
Qed.

Lemma strip_trimmed (s : string) : trimmed (PyStr.strip s).
Proof.
  unfold trimmed, PyStr.strip, PyStr.lstrip, PyStr.rstrip. split.
  - apply lstrip_by_twice.
  - now rewrite rstrip_lstrip_by, rstrip_by_twice.
Qed.

Lemma trimmed_strip (s : string) : trimmed s -> PyStr.strip s = s.
Proof. unfold trimmed, PyStr.strip. now intros [Hl ->]. Qed.

Lemma lstrip_append (t x : string) :
  PyStr.lstrip t = t -> PyStr.nonempty t = true ->
  PyStr.lstrip (t +:+ x) = t +:+ x.
Proof.
  unfold PyStr.lstrip. destruct t as [|c t]; [discriminate|]. simpl. intros H _.
  destruct (PyStr.isspace c); [|reflexivity].
  pose proof (length_lstrip_by PyStr.isspace t) as L. rewrite H in L. simpl in L. lia.
Qed.

Lemma rstrip_append (a b : string) :
  PyStr.rstrip b = b -> PyStr.nonempty b = true ->
  PyStr.rstrip (a +:+ b) = a +:+ b.
Proof.
  unfold PyStr.rstrip. intros Hb Hn. induction a as [|c a IH]; [exact Hb|].
  simpl. rewrite IH. destruct (a +:+ b) eqn:E; [|reflexivity].
  destruct a; simpl in E; [subst b|]; discriminate.
Qed.

Lemma trimmed_extend (t clean : string) :
  trimmed t -> trimmed clean -> PyStr.nonempty clean = true ->
  trimmed (extend t clean).
Proof.
  unfold extend. intros [Hl Hr] [Hcl Hcr] Hn.
  destruct (PyStr.nonempty t) eqn:Et; [|now split].
  split.
  - now apply lstrip_append.
  - apply rstrip_append; [|reflexivity]. now apply (rstrip_append " " clean).
Qed.

Lemma has_cons (c d : ascii) (s : string) :
  has c (String d s) = Ascii.eqb c d || has c s.
Proof.
  unfold has. simpl. now rewrite andb_true_r.
Qed.

Lemma has_append (c : ascii) (a b : string) :
  has c (a +:+ b) = has c a || has c b.
Proof.
  induction a as [|d a IH].
  - simpl. unfold has at 2. simpl. reflexivity.
  - change (String d a +:+ b) with (String d (a +:+ b)).
    now rewrite !has_cons, IH, orb_assoc.
Qed.

Lemma has_replace_other (c old : ascii) (new s : string) :
  c <> old -> has c new = false ->
  has c (PyStr.replace old new s) = has c s.
Proof.
  intros Hne Hnew. induction s as [|d s IH]; [reflexivity|]. simpl.
  destruct (Ascii.eqb_spec d old) as [->|Hd].
  - rewrite has_append, Hnew, IH, has_cons.
    apply Ascii.eqb_neq in Hne. now rewrite Hne.
  - now rewrite !has_cons, IH.
Qed.

Lemma has_replace_old (old : ascii) (new s : string) :
  has old new = false -> has old (PyStr.replace old new s) = false.
Proof.
  intros Hnew. induction s as [|d s IH]; [reflexivity|]. simpl.
  destruct (Ascii.eqb_spec d old) as [->|Hd].
  - now rewrite has_append, Hnew, IH.
  - rewrite has_cons, IH. apply not_eq_sym, Ascii.eqb_neq in Hd. now rewrite Hd.
Qed.

Lemma normalize_amount_sign (val : string) :
  has "-" (normalize_amount val) = has "-" val.
Proof.
  unfold normalize_amount. destruct val as [|c val]; [reflexivity|].
  cbv [PyStr.nonempty].
  rewrite has_replace_other by (discriminate || reflexivity).
  now rewrite has_replace_other by (discriminate || reflexivity).
Qed.

Lemma normalize_amount_no_comma (val : string) :
  has "," (normalize_amount val) = false.
Proof.
  unfold normalize_amount. destruct (PyStr.nonempty val); [|reflexivity].
  now apply has_replace_old.
Qed.

(** ** More on the line parser *)

(** The pattern for the date looks at the first ten characters only. *)
Lemma date_prefix (line : string) :
  Re.matches DATE_RE line = true ->
  Re.matches DATE_RE (PyStr.take 10 line) = true /\
  String.length (PyStr.take 10 line) = 10.
Proof.
  intros H.
  do 10 (destruct line as [|? line];
         [exfalso; revert H;
          cbv [Re.matches Re.match_len DATE_RE Re.times Re.digit Re.chr Re.run];
          repeat (match goal with
                  | |- context [if ?b then _ else _] =>
                      match type of b with bool => destruct b end
                  end);
          intros H; discriminate H|]).
  split; [|reflexivity].
  revert H.
  cbv [Re.matches Re.match_len DATE_RE Re.times Re.digit Re.chr Re.run PyStr.take].
  repeat (match goal with
          | |- context [if ?b then _ else _] =>
              match type of b with bool => destruct b end
          end);
    intros H; try discriminate H; reflexivity.
Qed.

(** For a property of records to hold of all the parser emits, it is
    enough that every opened record has it and that taking one more line
    into the text block keeps it. *)
Lemma parse_lines_Forall (P : booking -> Prop) :
  (forall line, is_header line = true -> P (open_booking (PyStr.rstrip line))) ->
  (forall b line,
     P b -> 2 <= String.length (PyStr.strip (PyStr.rstrip line)) ->
     P (set_Textblock (extend (Textblock b) (PyStr.strip (PyStr.rstrip line))) b)) ->
  forall lines, Forall P (parse_lines lines).
Proof.
  intros Hopen Hext lines. unfold parse_lines.
  assert (forall st, Forall P (close st) ->
            Forall P (close (parse_loop lines st).1)) as H.
  { induction lines as [|l lines IH]; intros st Hst; simpl; [exact Hst|].
    assert (Forall P (close (parse_line st l).1)) as H1.
    { unfold parse_line, close in *.
      destruct (Re.matches DATE_RE (PyStr.rstrip l)) eqn:Eh.
      - simpl. apply Forall_app. split; [exact Hst|].
        constructor; [now apply Hopen | constructor].
      - destruct (current st) as [c|] eqn:Ec; [|simpl; now rewrite Ec].
        destruct (Re.search END_MARKER_RE (PyStr.rstrip l)); [exact Hst|].
        destruct (String.length (PyStr.strip (PyStr.rstrip l)) <? 2) eqn:El;
          [simpl; now rewrite Ec|].
        apply Nat.ltb_ge in El.
        apply Forall_app in Hst as [Hb Hc]. apply Forall_inv in Hc.
        pose proof (Hext c l Hc El) as Hc'. unfold extend in Hc'.
        destruct (PyStr.nonempty (Textblock c)); simpl;
          apply Forall_app; (split; [exact Hb|]); now repeat constructor. }
    destruct (parse_line st l) as [st1 [|]]; simpl in *; [now apply IH | exact H1]. }
  apply H. constructor.
Qed.

(** X1: every record the parser emits carries a date of ten characters
    that matches the date pattern. *)
Theorem every_record_is_dated (lines : list string) :
  Forall dated (parse_lines lines).
Proof.
  apply parse_lines_Forall.
  - intros line H. unfold dated, open_booking. simpl. now apply date_prefix.
  - intros b line H _. exact H.
Qed.

(** X2: a record's text block and booking type carry no white space at
    either end, so that trimming the text block again, as the enricher
    does, changes nothing; the booking type has at most 20 characters. *)
Theorem records_are_trimmed (lines : list string) :
  Forall (fun b =>
            PyStr.strip (Textblock b) = Textblock b /\
            PyStr.strip (Buchungsart b) = Buchungsart b /\
            String.length (Buchungsart b) <= 20)
    (parse_lines lines).
Proof.
  apply (Forall_impl
           (fun b => trimmed (Textblock b) /\ trimmed (Buchungsart b) /\
                     String.length (Buchungsart b) <= 20)).
  - apply parse_lines_Forall.
    + intros line _. unfold open_booking. cbn [Textblock Buchungsart]. repeat split.
      * apply strip_trimmed.
      * apply strip_trimmed.
      * unfold PyStr.strip, PyStr.lstrip, PyStr.rstrip.
        etransitivity; [apply length_lstrip_by|].
        etransitivity; [apply length_rstrip_by|]. apply str_length_take.
    + intros b line (Ht & Hb) Hlen. simpl. split; [|exact Hb].
      apply trimmed_extend; [exact Ht | apply strip_trimmed |].
      now apply nonempty_length, Nat.leb_le.
  - intros b (Ht & Hb & Hl). simpl. auto using trimmed_strip.
Qed.

(** X3: in every record the parser emits, a filled debit holds the minus
    sign of the matched amount, the credit holds no minus sign, and
    neither holds a comma. *)
Theorem amounts_are_signed (lines : list string) :
  Forall signed_amounts (parse_lines lines).
Proof.
  apply parse_lines_Forall.
  - intros line _. unfold signed_amounts, open_booking. cbn [Soll Haben].
    destruct (Re.findall AMOUNT_RE _) as [|a amounts] eqn:E; [now repeat split; auto|].
    fold (has "-" (last_amount (a :: amounts))).
    destruct (has "-" (last_amount (a :: amounts))) eqn:Ed.
    + repeat split; try reflexivity.
      * right. now rewrite normalize_amount_sign.
      * apply normalize_amount_no_comma.
    + repeat split; try reflexivity.
      * now left.
      * now rewrite normalize_amount_sign.
      * apply normalize_amount_no_comma.
  - intros b line H _. exact H.
Qed.

Lemma parse_loop_preamble (pre : list string) :
  forallb (fun line => negb (is_header line)) pre = true ->
  parse_loop pre start = (start, Next).
Proof.
  induction pre as [|l pre IH]; simpl; [reflexivity|]. intros H.
  apply andb_prop in H as [Hl Hpre]. apply negb_true_iff in Hl.
  unfold parse_line. unfold is_header in Hl. rewrite Hl. simpl. now apply IH.
Qed.

(** X4: the lines before the first header line leave no trace, marker
    lines among them included: parsing starts at the first line that
    starts with a date. *)
Theorem preamble_is_ignored (pre rest : list string) :
  forallb (fun line => negb (is_header line)) pre = true ->
  parse_lines (pre ++ rest) = parse_lines rest.
Proof.
  intros H. unfold parse_lines. fold start.
  now rewrite parse_loop_app, (parse_loop_preamble _ H).
Qed.

Lemma preamble_is_ignored_witness :
  parse_lines (["DKB Kontoauszug"; "Kontostand am 01.01.2024  100,00"; ""] ++
               ["02.01.2024 Lastschrift -10,00"; "AMAZON EU SARL"]) =
  parse_lines ["02.01.2024 Lastschrift -10,00"; "AMAZON EU SARL"].
Proof.
  apply (preamble_is_ignored
           ["DKB Kontoauszug"; "Kontostand am 01.01.2024  100,00"; ""]).
  reflexivity.
Defined.

Lemma parse_line_noise (st : parser) (noise : string) :
  is_noise noise = true -> parse_line st noise = (st, Next).
Proof.
  unfold is_noise, is_continuation, is_header, has_marker, parse_line.
  intros H. apply andb_prop in H as [H Hlen]. apply andb_prop in H as [Hh Hm].
  apply negb_true_iff in Hh, Hm. rewrite Hh, Hm, Hlen.
  now destruct (current st).
Qed.

(** X5: a line that is no header and no marker and has fewer than two
    characters once trimmed can be taken out of the input, or put into it,
    at any place without changing the records. *)
Theorem noise_lines_are_skipped (before : list string) (noise : string)
    (after : list string) :
  is_noise noise = true ->
  parse_lines (before ++ noise :: after) = parse_lines (before ++ after).
Proof.
  intros H. unfold parse_lines. rewrite !parse_loop_app.
  destruct (parse_loop before _) as [st [|]]; [|reflexivity].
  simpl. now rewrite (parse_line_noise _ _ H).
Qed.

Lemma noise_lines_are_skipped_witness :
  parse_lines (["02.01.2024 Lastschrift -10,00"; "AMAZON"] ++ "  . " ::
               ["EU SARL"]) =
  parse_lines (["02.01.2024 Lastschrift -10,00"; "AMAZON"] ++ ["EU SARL"]).
Proof.
  apply (noise_lines_are_skipped ["02.01.2024 Lastschrift -10,00"; "AMAZON"]).
  reflexivity.
Defined.

Lemma header_dates_cons (line : string) (lines : list string) :
  header_dates (line :: lines) = header_dates [line] ++ header_dates lines.
Proof. unfold header_dates. simpl. now destruct (is_header line). Qed.

Lemma parse_line_dates (st : parser) (line : string) :
  map Datum (close (parse_line st line).1) =
  map Datum (close st) ++ header_dates [line].
Proof.
  unfold header_dates, parse_line, close, is_header. simpl.
  destruct (Re.matches DATE_RE (PyStr.rstrip line)); simpl.
  - now rewrite map_app.
  - rewrite app_nil_r. destruct (current st) as [c|] eqn:Ec; [|simpl; now rewrite Ec].
    destruct (Re.search END_MARKER_RE (PyStr.rstrip line)); [reflexivity|].
    destruct (String.length (PyStr.strip (PyStr.rstrip line)) <? 2);
      [simpl; now rewrite Ec|].
    destruct (PyStr.nonempty (Textblock c)); simpl; now rewrite !map_app.
Qed.

Lemma parse_loop_dates (lines : list string) (st : parser) :
  exists pre post,
    lines = pre ++ post /\
    map Datum (close (parse_loop lines st).1) =
    map Datum (close st) ++ header_dates pre.
Proof.
  revert st; induction lines as [|l lines IH]; intros st.
  - exists [], []. split; [reflexivity|]. simpl. now rewrite app_nil_r.
  - simpl. pose proof (parse_line_dates st l) as Hl.
    destruct (parse_line st l) as [st1 [|]]; simpl in Hl.
    + destruct (IH st1) as (pre & post & -> & H).
      exists (l :: pre), post. split; [reflexivity|].
      rewrite (header_dates_cons l pre), H, Hl. now rewrite <- app_assoc.
    + exists [l], lines. split; [reflexivity|]. exact Hl.
Qed.

Lemma parse_loop_dates_all (lines : list string) (st : parser) :
  no_end_marker lines = true ->
  map Datum (close (parse_loop lines st).1) =
  map Datum (close st) ++ header_dates lines.
Proof.
  unfold no_end_marker.
  revert st; induction lines as [|l lines IH]; intros st H; simpl in *.
  - now rewrite app_nil_r.
  - apply andb_prop in H as [Hl Hrest].
    pose proof (parse_line_dates st l) as Hd.
    assert ((parse_line st l).2 = Next) as Hn.
    { unfold parse_line, is_header, has_marker in *.
      destruct (Re.matches DATE_RE (PyStr.rstrip l)); [reflexivity|].
      simpl in Hl. apply negb_true_iff in Hl. rewrite Hl.
      destruct (current st) as [c|]; [|reflexivity].
      destruct (String.length (PyStr.strip (PyStr.rstrip l)) <? 2); [reflexivity|].
      now destruct (PyStr.nonempty (Textblock c)). }
    destruct (parse_line st l) as [st1 f]; simpl in *. subst f.
    rewrite (header_dates_cons l lines), (IH _ Hrest), Hd. now rewrite <- app_assoc.
Qed.

(** X6: the records come one for each header line, in the order of the
    lines and with that line's date, up to the line that ends the
    statement: their dates are a prefix of the dates of the header lines,
    and all of them when no line ends the statement. *)
Theorem records_follow_headers (lines : list string) :
  (exists rest, header_dates lines = map Datum (parse_lines lines) ++ rest) /\
  (no_end_marker lines = true ->
   map Datum (parse_lines lines) = header_dates lines).
Proof.
  unfold parse_lines. split.
  - destruct (parse_loop_dates lines (mkParser [] None)) as (pre & post & -> & H).
    exists (header_dates post). rewrite H. unfold header_dates. simpl.
    now rewrite List.filter_app, map_app.
  - intros H. now rewrite (parse_loop_dates_all _ _ H).
Qed.

Lemma records_follow_headers_witness :
  map Datum (parse_lines ["01.01.2024 Gehalt 2.000,00"; "Firma";
                          "02.01.2024 Lastschrift -10,00"; "AMAZON";
                          "03.01.2024 Miete -700,00"]) =
  ["01.01.2024"; "02.01.2024"; "03.01.2024"].
Proof.
  exact (proj2 (records_follow_headers
                  ["01.01.2024 Gehalt 2.000,00"; "Firma";
                   "02.01.2024 Lastschrift -10,00"; "AMAZON";
                   "03.01.2024 Miete -700,00"]) eq_refl).
Defined.

(** ** More on rule application *)

(** X7: rule application either finds that no key occurs in the text and
    returns no label, or returns the value of the first entry, in
    insertion order, whose key occurs in the text, with the text after the
    first [len(key)] characters, trimmed. *)
Theorem rule_application_decides (text : string) (rules : Json.dict) :
  (no_rule_matches text rules /\ apply_split_rule text rules = (None, None)) \/
  (exists pre key value post,
     rules = pre ++ (key, value) :: post /\
     no_rule_matches text pre /\
     PyStr.contains key text = true /\
     apply_split_rule text rules =
     (Some value, Some (PyStr.strip (PyStr.drop (String.length key) text)))).
Proof.
  unfold no_rule_matches.
  induction rules as [|[k v] rules IH]; simpl.
  - left. split; [constructor | reflexivity].
  - destruct (PyStr.contains k text) eqn:E.
    + right. exists [], k, v, rules. repeat split; auto.
    + destruct IH as [[Hno Hr]|(pre & key & value & post & -> & Hpre & Hk & Hr)].
      * left. split; [now constructor | exact Hr].
      * right. exists ((k, v) :: pre), key, value, post.
        repeat split; auto. now constructor.
Qed.

(** X8: a key that stands at the start of the text, in the first entry,
    splits the text in two: the text is the key followed by a tail, and
    the description is that tail, trimmed. *)
Theorem prefix_key_splits_text (key value text : string) (rules : Json.dict) :
  PyStr.startswith key text = true ->
  exists tail,
    text = key +:+ tail /\
    apply_split_rule text ((key, value) :: rules) = (Some value, Some (PyStr.strip tail)).
Proof.
  intros H. exists (PyStr.drop (String.length key) text). split.
  - now apply startswith_drop.
  - simpl. now rewrite (startswith_contains _ _ H).
Qed.

Lemma prefix_key_splits_text_witness :
  exists tail,
    "PAYPAL *SHOP 123" = "PAYPAL" +:+ tail /\
    apply_split_rule "PAYPAL *SHOP 123" [("PAYPAL", "PayPal"); ("SHOP", "Shop")] =
    (Some "PayPal", Some (PyStr.strip tail)).
Proof.
  apply (prefix_key_splits_text "PAYPAL" "PayPal" "PAYPAL *SHOP 123"). reflexivity.
Defined.

Lemma contains_empty (text : string) : PyStr.contains EmptyString text = true.
Proof. now destruct text. Qed.

(** X9: once a rule with the empty key is saved, it labels every text that
    no other rule matches, and the whole trimmed text becomes the
    description. *)
Theorem empty_key_labels_everything (text value : string) (rules : Json.dict) :
  no_rule_matches text rules ->
  apply_split_rule text (Json.upsert EmptyString value rules) =
  (Some value, Some (PyStr.strip text)).
Proof.
  intros H. rewrite upsert_fresh.
  - rewrite (apply_split_rule_first text rules EmptyString value [] H (contains_empty _)).
    reflexivity.
  - intros Hin. unfold no_rule_matches in H.
    rewrite List.Forall_forall in H. specialize (H _ Hin).
    now rewrite contains_empty in H.
Qed.

Lemma empty_key_labels_everything_witness :
  apply_split_rule "REWE SAGT DANKE"
    (Json.upsert EmptyString "Sonstiges" [("AMAZON", "Amazon")]) =
  (Some "Sonstiges", Some (PyStr.strip "REWE SAGT DANKE")).
Proof.
  apply empty_key_labels_everything. repeat constructor.
Defined.

Lemma lstrip_by_split (p : ascii -> bool) (s : string) :
  exists pre, s = pre +:+ PyStr.lstrip_by p s /\ PyStr.forallb p pre = true.
Proof.
  induction s as [|c s (pre & Hs & Hp)]; simpl.
  - now exists EmptyString.
  - destruct (p c) eqn:E.
    + exists (String c pre). simpl. rewrite E, Hp. split; [now rewrite <- Hs | reflexivity].
    + now exists EmptyString.
Qed.

Lemma lstrip_by_head (p : ascii -> bool) (s : string) :
  match PyStr.lstrip_by p s with
  | String c _ => p c = false
  | EmptyString => True
  end.
Proof.
  induction s as [|c s IH]; simpl; [exact I|].
  destruct (p c) eqn:E; [exact IH | exact E].
Qed.

(** X10: [clean_description] removes a run of separator characters from
    the left and nothing else: the text is that run followed by the
    result, the result does not start with a separator, and cleaning it
    again changes nothing. *)
Theorem clean_description_strips (text : string) :
  (exists pre,
     text = pre +:+ clean_description (Some text) /\
     PyStr.forallb is_separator pre = true) /\
  match clean_description (Some text) with
  | String c _ => is_separator c = false
  | EmptyString => True
  end /\
  clean_description (Some (clean_description (Some text))) =
  clean_description (Some text).
Proof.
  unfold clean_description, PyStr.lstrip_chars. fold is_separator.
  destruct text as [|c text]; [repeat split; now exists EmptyString|].
  cbv [PyStr.nonempty]. repeat split.
  - apply lstrip_by_split.
  - apply lstrip_by_head.
  - destruct (PyStr.lstrip_by is_separator (String c text)) eqn:E; [reflexivity|].
    cbv [PyStr.nonempty]. rewrite <- E. apply lstrip_by_twice.
Qed.

(** ** More on the rule store *)

Lemma in_insert_unique (y x : string) (l : list string) :
  In y (insert_unique x l) <-> y = x \/ In y l.
Proof.
  induction l as [|z l IH]; simpl; [intuition|].
  destruct (String.compare x z) eqn:E; simpl.
  - apply String.compare_eq_iff in E. subst z. intuition.
  - intuition.
  - rewrite IH. intuition.
Qed.

Lemma HdRel_insert_unique (y x : string) (l : list string) :
  str_lt y x -> HdRel str_lt y l -> HdRel str_lt y (insert_unique x l).
Proof.
  intros Hyx Hl. destruct l as [|z l]; simpl; [now constructor|].
  destruct (String.compare x z); [exact Hl | now constructor |].
  constructor. now inversion Hl.
Qed.

Lemma insert_unique_sorted (x : string) (l : list string) :
  Sorted str_lt l -> Sorted str_lt (insert_unique x l).
Proof.
  induction 1 as [|z l Hl IH Hz]; simpl; [now repeat constructor|].
  destruct (String.compare x z) eqn:E.
  - now constructor.
  - repeat constructor; assumption.
  - constructor; [exact IH|]. apply HdRel_insert_unique; [|exact Hz].
    unfold str_lt. rewrite String.compare_antisym, E. reflexivity.
Qed.

Lemma sorted_set_sorted (xs : list string) : Sorted str_lt (sorted_set xs).
Proof.
  induction xs; simpl; [constructor | now apply insert_unique_sorted].
Qed.

Lemma in_sorted_set (y : string) (xs : list string) :
  In y (sorted_set xs) <-> In y xs.
Proof.
  induction xs as [|x xs IH]; simpl; [reflexivity|].
  rewrite in_insert_unique, IH. intuition.
Qed.

Lemma ascii_compare_trans (a b c : ascii) :
  Ascii.compare a b = Lt -> Ascii.compare b c = Lt -> Ascii.compare a c = Lt.
Proof.
  unfold Ascii.compare. rewrite !N.compare_lt_iff. apply N.lt_trans.
Qed.

Lemma str_lt_trans (a b c : string) : str_lt a b -> str_lt b c -> str_lt a c.
Proof.
  unfold str_lt. revert b c.
  induction a as [|x a IH]; intros [|y b] [|z c]; simpl; try easy.
  destruct (Ascii.compare x y) eqn:Exy; try easy;
    destruct (Ascii.compare y z) eqn:Eyz; try easy.
  - apply Ascii.compare_eq_iff in Exy, Eyz. subst.
    assert (Ascii.compare z z = Eq) as ->; [|apply IH].
    pose proof (Ascii.compare_antisym z z). now destruct (Ascii.compare z z).
  - apply Ascii.compare_eq_iff in Exy. subst. now rewrite Eyz.
  - apply Ascii.compare_eq_iff in Eyz. subst. now rewrite Exy.
  - now rewrite (ascii_compare_trans _ _ _ Exy Eyz).
Qed.

Lemma str_lt_irrefl (a : string) : ~ str_lt a a.
Proof.
  unfold str_lt. pose proof (String.compare_antisym a a).
  now destruct (String.compare a a).
Qed.

Lemma sorted_set_nodup (xs : list string) : List.NoDup (sorted_set xs).
Proof.
  pose proof (sorted_set_sorted xs) as H.
  apply Sorted_StronglySorted in H; [|exact str_lt_trans].
  induction H as [|x l Hl IH Hx]; constructor; [|exact IH].
  intros Hin. rewrite List.Forall_forall in Hx. exact (str_lt_irrefl x (Hx x Hin)).
Qed.

(** X11: the known display names are the values of the rule document,
    each once, in strictly ascending order; a missing document gives
    none. *)
Theorem declarations_sorted_unique (path : string) (fs : gmap string string)
    (db : Json.dict) :
  load_reference_db path fs = Ok db ->
  exists names,
    load_declarations path fs = Ok names /\
    Sorted str_lt names /\ List.NoDup names /\
    (forall name, In name names <-> In name (Json.values db)) /\
    (fs !! path = None -> names = []).
Proof.
  intros H. unfold load_declarations. rewrite H. eexists. split; [reflexivity|].
  split; [apply sorted_set_sorted|]. split; [apply sorted_set_nodup|].
  split; [intros; apply in_sorted_set|].
  intros Hnone. unfold load_reference_db in H. rewrite Hnone in H.
  now inversion H.
Qed.

Lemma declarations_sorted_unique_witness :
  exists names,
    load_declarations "split_rules.json"
      (store_of [("PP *", "PayPal"); ("AMAZON", "Amazon"); ("PAYPAL", "PayPal")]) =
      Ok names /\
    Sorted str_lt names /\ List.NoDup names /\
    (forall name,
       In name names <->
       In name (Json.values [("PP *", "PayPal"); ("AMAZON", "Amazon");
                             ("PAYPAL", "PayPal")])) /\
    (store_of [("PP *", "PayPal"); ("AMAZON", "Amazon"); ("PAYPAL", "PayPal")]
       !! "split_rules.json" = None -> names = []).
Proof.
  apply (declarations_sorted_unique "split_rules.json"
           (store_of [("PP *", "PayPal"); ("AMAZON", "Amazon"); ("PAYPAL", "PayPal")])).
  reflexivity.
Defined.

Lemma load_after_write (path : string) (fs : gmap string string) (db : Json.dict) :
  List.NoDup (Json.keys db) ->
  load_reference_db path (<[path := Json.dumps db]> fs) = Ok db.
Proof.
  intros H. unfold load_reference_db.
  now rewrite lookup_insert_eq, loads_dumps.
Qed.

Lemma upsert_twice (key v1 v2 : string) (db : Json.dict) :
  Json.upsert key v2 (Json.upsert key v1 db) = Json.upsert key v2 db.
Proof.
  induction db as [|[k v] db IH]; simpl.
  - now rewrite String.eqb_refl.
  - destruct (String.eqb key k) eqn:E; simpl; rewrite E; [reflexivity|].
    now rewrite IH.
Qed.



Lemma keys_upsert (key value : string) (db : Json.dict) :
  Json.keys (Json.upsert key value db) =
  if has_key key db then Json.keys db else Json.keys db ++ [key].
Proof.
  unfold has_key. induction db as [|[k v] db IH]; simpl; [reflexivity|].
  destruct (String.eqb key k); simpl; [reflexivity|].
  rewrite IH. now destruct (existsb _ _).
Qed.



(** ** More on the fuzzy shortlist *)

Section ShortlistMore.

Variable ratio : string -> string -> Q.

Lemma in_insert_desc (e x : string * Q) (l : list (string * Q)) :
  In e (insert_desc x l) <-> e = x \/ In e l.
Proof.
  induction l as [|y l IH]; simpl; [intuition|].
  destruct (Qle_bool (snd y) (snd x)); simpl; [intuition|].
  rewrite IH. intuition.
Qed.

Lemma in_sort_desc (e : string * Q) (l : list (string * Q)) :
  In e (sort_desc l) <-> In e l.
Proof.
  induction l as [|x l IH]; simpl; [reflexivity|].
  rewrite in_insert_desc, IH. intuition.
Qed.

Lemma in_score_names (text name : string) (names : list string) :
  In name names ->
  (4 # 10 <= fuzzy_score ratio text name)%Q ->
  In (name, fuzzy_score ratio text name) (score_names ratio text (4 # 10) names).
Proof.
  intros Hin Hs. induction names as [|n names IH]; simpl; [easy|].
  destruct Hin as [->|Hin].
  - apply Qle_bool_iff in Hs. rewrite Hs. now left.
  - destruct (Qle_bool _ _); [right|]; now apply IH.
Qed.

Lemma sorted_app_ranks (a b : list (string * Q)) :
  StronglySorted ranks_before (a ++ b) ->
  forall x y, In x a -> In y b -> ranks_before x y.
Proof.
  induction a as [|z a IH]; simpl; intros H x y Hx Hy; [easy|].
  apply StronglySorted_inv in H as [Hs Hz].
  destruct Hx as [->|Hx]; [|now apply (IH Hs)].
  rewrite List.Forall_forall in Hz. apply Hz. apply in_or_app. now right.
Qed.

(** X14: the cut to five entries drops only the weakest: a known name
    that reaches the threshold is on the shortlist, or the shortlist is
    full and every entry on it scores at least as high. *)
Theorem shortlist_keeps_the_best
    (text : string) (fs : gmap string string) (names : list string) :
  load_declarations "split_rules.json" fs = Ok names ->
  exists shortlist,
    get_fuzzy_declarations ratio text fs = Ok shortlist /\
    forall name,
      In name names ->
      (4 # 10 <= fuzzy_score ratio text name)%Q ->
      In (name, fuzzy_score ratio text name) shortlist \/
      (length shortlist = 5 /\
       forall e, In e shortlist -> (fuzzy_score ratio text name <= snd e)%Q).
Proof.
  intros Hload. unfold get_fuzzy_declarations, get_fuzzy_declarations_with.
  rewrite Hload. eexists. split; [reflexivity|]. intros name Hin Hs.
  set (sorted := sort_desc (score_names ratio text (4 # 10) names)).
  assert (In (name, fuzzy_score ratio text name) sorted) as H.
  { apply in_sort_desc. now apply in_score_names. }
  rewrite <- (list.take_drop 5 sorted) in H.
  apply in_app_or in H as [H|H]; [now left | right]. split.
  - rewrite list.length_take. destruct (drop 5 sorted) eqn:E; [easy|].
    apply (f_equal (@length _)) in E. rewrite length_drop in E. simpl in E. lia.
  - intros e He.
    pose proof (sort_desc_sorted (score_names ratio text (4 # 10) names)) as Hsorted.
    fold sorted in Hsorted. rewrite <- (list.take_drop 5 sorted) in Hsorted.
    exact (sorted_app_ranks _ _ Hsorted e _ He H).
Qed.

Lemma in_range_In {A : Type} (idx : Z) (xs : list A) (x : A) :
  in_range idx xs = Some x -> In x xs.
Proof.
  unfold in_range. destruct (_ && _)%bool; [|discriminate].
  intros H. apply list_elem_of_In. eapply list_elem_of_lookup_2. exact H.
Qed.

Lemma fuzzy_names_known (text : string) (fs : gmap string string)
    (fuzzy : list (string * Q)) :
  get_fuzzy_declarations ratio text fs = Ok fuzzy ->
  exists names,
    load_declarations "split_rules.json" fs = Ok names /\
    forall e, In e fuzzy -> In (fst e) names.
Proof.
  unfold get_fuzzy_declarations, get_fuzzy_declarations_with.
  destruct (load_declarations _ fs) as [names|]; [|discriminate].
  intros [= <-]. exists names. split; [reflexivity|]. intros e He.
  pose proof (score_names_shortlisted ratio text names) as H.
  apply sort_desc_Forall in H. apply (Forall_take _ 5) in H.
  rewrite List.Forall_forall in H. now apply (H e He).
Qed.

Lemma select_loop_known (text : string) (fs : gmap string string)
    (inp inp' : list string) (name : string) :
  select_loop ratio text fs inp = (Ok (@Return _ _ (Some name)), inp') ->
  exists names,
    load_declarations "split_rules.json" fs = Ok names /\ In name names.
Proof.
  revert inp'. induction inp as [|answer inp IH]; intros inp'; simpl.
  - destruct (get_fuzzy_declarations ratio text fs) as [[|e fuzzy]|]; discriminate.
  - destruct (get_fuzzy_declarations ratio text fs) as [[|e fuzzy]|] eqn:E;
      try discriminate.
    destruct (fuzzy_names_known _ _ _ E) as (names & Hload & Hin).
    set (choice := PyStr.lower (PyStr.strip answer)).
    assert ((if String.eqb choice "a" then (Ok (@Leave _ _ tt), inp)
             else if String.eqb choice "n" then (Ok (@Return _ _ None), inp)
             else select_loop ratio text fs inp) = (Ok (@Return _ _ (Some name)), inp') ->
            exists names0,
              load_declarations "split_rules.json" fs = Ok names0 /\ In name names0)
      as Hothers.
    { destruct (String.eqb choice "a"); [discriminate|].
      destruct (String.eqb choice "n"); [discriminate|]. apply IH. }
    destruct (PyStr.isdigit choice); [|exact Hothers].
    destruct (PyStr.int choice) as [n|]; [|discriminate].
    destruct (in_range (n - 1) (e :: fuzzy)) as [entry|] eqn:Er; [|exact Hothers].
    intros [= <- <-]. exists names. split; [exact Hload|].
    apply Hin. now apply (in_range_In _ _ _ Er).
Qed.

Lemma select_all_known (fs : gmap string string) (inp inp' : list string)
    (name : string) :
  select_all fs inp = (Ok (Some name), inp') ->
  exists names,
    load_declarations "split_rules.json" fs = Ok names /\ In name names.
Proof.
  unfold select_all.
  destruct (load_declarations _ fs) as [[|n0 names]|]; try discriminate.
  destruct inp as [|answer inp]; [discriminate|].
  destruct (PyStr.isdigit _); [|discriminate].
  destruct (PyStr.int _) as [n|]; [|discriminate].
  destruct (in_range (n - 1) (n0 :: names)) as [x|] eqn:Er; [|discriminate].
  intros [= <- <-]. eexists. split; [reflexivity|]. now apply (in_range_In _ _ _ Er).
Qed.

Lemma select_keeps_files (text : string) (w w' : world) (r : result (option string)) :
  ask_user_select_declaration ratio text w = (r, w') -> files w' = files w.
Proof.
  unfold ask_user_select_declaration, bind, prompting, ret.
  destruct (select_loop ratio text (files w) (stdin w)) as [[[x|[]]|e] rest]; simpl.
  - now intros [= <- <-].
  - destruct (select_all (files w) rest) as [r' rest']. now intros [= <- <-].
  - now intros [= <- <-].
Qed.

(** X15: [ask_user_select_declaration] never makes up a name: a name it
    returns is one of the known display names of the rule document, which
    it leaves untouched. *)
Theorem selected_name_is_known (text : string) (w w' : world) (name : string) :
  ask_user_select_declaration ratio text w = (Ok (Some name), w') ->
  files w' = files w /\
  exists names,
    load_declarations "split_rules.json" (files w) = Ok names /\ In name names.
Proof.
  intros H. split; [exact (select_keeps_files _ _ _ _ H)|].
  revert H. unfold ask_user_select_declaration, bind, prompting, ret.
  destruct (select_loop ratio text (files w) (stdin w)) as [[[x|[]]|e] rest] eqn:E;
    simpl.
  - intros [= -> <-]. exact (select_loop_known _ _ _ _ _ E).
  - destruct (select_all (files w) rest) as [r' rest'] eqn:E2.
    intros [= -> <-]. exact (select_all_known _ _ _ _ E2).
  - discriminate.
Qed.

End ShortlistMore.

Lemma shortlist_keeps_the_best_witness :
  exists shortlist,
    get_fuzzy_declarations positional "amazon eu"
      (store_of [("a", "Amazon"); ("b", "Amazing"); ("c", "PayPal"); ("d", "Amazon EU");
                 ("e", "Amazon.de"); ("f", "amazon eu sarl"); ("g", "Amaz")]) =
      Ok shortlist /\
    forall name,
      In name ["Amaz"; "Amazing"; "Amazon"; "Amazon EU"; "Amazon.de"; "PayPal";
               "amazon eu sarl"] ->
      (4 # 10 <= fuzzy_score positional "amazon eu" name)%Q ->
      In (name, fuzzy_score positional "amazon eu" name) shortlist \/
      (length shortlist = 5 /\
       forall e, In e shortlist -> (fuzzy_score positional "amazon eu" name <= snd e)%Q).
Proof.
  apply (shortlist_keeps_the_best positional "amazon eu"
           (store_of [("a", "Amazon"); ("b", "Amazing"); ("c", "PayPal");
                      ("d", "Amazon EU"); ("e", "Amazon.de");
                      ("f", "amazon eu sarl"); ("g", "Amaz")])).
  reflexivity.
Defined.

Lemma selected_name_is_known_witness :
  files (mkWorld (store_of [("a", "Amazon"); ("b", "Amazonas")]) []) =
  files (mkWorld (store_of [("a", "Amazon"); ("b", "Amazonas")]) ["9"; "2"]) /\
  exists names,
    load_declarations "split_rules.json"
      (files (mkWorld (store_of [("a", "Amazon"); ("b", "Amazonas")]) ["9"; "2"])) =
      Ok names /\
    In "Amazonas" names.
Proof.
  apply (selected_name_is_known positional "AMAZON"
           (mkWorld (store_of [("a", "Amazon"); ("b", "Amazonas")]) ["9"; "2"])
           (mkWorld (store_of [("a", "Amazon"); ("b", "Amazonas")]) [])
           "Amazonas").
  reflexivity.
Defined.

(** ** More on the prompt *)

Lemma length_lower (s : string) : String.length (PyStr.lower s) = String.length s.
Proof. induction s; simpl; [reflexivity | now f_equal]. Qed.

Lemma startswith_length (p t : string) :
  PyStr.startswith p t = true -> String.length p <= String.length t.
Proof.
  revert t; induction p as [|a p IH]; intros [|b t]; simpl; try easy; try lia.
  intros H. apply andb_prop in H as [_ H]. specialize (IH _ H). lia.
Qed.

Lemma rfind_opt_bound (p t : string) (i : nat) :
  PyStr.rfind_opt p t = Some i ->
  i + String.length p <= String.length t /\
  PyStr.startswith p (PyStr.drop i t) = true.
Proof.
  revert i; induction t as [|c t IH]; intros i.
  - simpl. destruct (PyStr.startswith p EmptyString) eqn:E; [|discriminate].
    intros [= <-]. split; [apply (startswith_length _ _ E) | exact E].
  - change (PyStr.rfind_opt p (String c t))
      with (match PyStr.rfind_opt p t with
            | Some j => Some (S j)
            | None => if PyStr.startswith p (String c t) then Some 0 else None
            end).
    destruct (PyStr.rfind_opt p t) as [j|].
    + intros [= <-]. destruct (IH j eq_refl) as [Hb Hs]. simpl. split; [lia | exact Hs].
    + destruct (PyStr.startswith p (String c t)) eqn:E; [|discriminate].
      intros [= <-]. split; [apply (startswith_length _ _ E) | exact E].
Qed.

(** The marker that leaves the first loop is not empty and occurs, letter
    case aside, at the position found, inside the text. *)
Lemma marker_loop_found (text : string) (inp inp' : list string)
    (marker : string) (idx : Z) :
  marker_loop text inp = (Ok (@Leave unit _ (marker, idx)), inp') ->
  PyStr.nonempty marker = true /\
  exists i,
    idx = Z.of_nat i /\
    i + String.length marker <= String.length text /\
    PyStr.startswith (PyStr.lower marker) (PyStr.drop i (PyStr.lower text)) = true.
Proof.
  revert inp'. induction inp as [|answer inp IH]; intros inp'; simpl; [discriminate|].
  destruct (PyStr.nonempty (PyStr.strip answer)) eqn:En; simpl; [|discriminate].
  unfold PyStr.rfind.
  destruct (PyStr.rfind_opt _ _) as [i|] eqn:E.
  - destruct (Z.of_nat i =? -1)%Z eqn:Ez; [apply Z.eqb_eq in Ez; lia|].
    intros [= <- <- <-]. split; [exact En|]. exists i.
    destruct (rfind_opt_bound _ _ _ E) as [Hb Hs].
    rewrite !length_lower in Hb. auto.
  - simpl. apply IH.
Qed.

Lemma shift_loop_bounds (text : string) (inp inp' : list string) (s r : Z) :
  (0 <= s <= Z.of_nat (String.length text))%Z ->
  shift_loop text s inp = (Ok r, inp') ->
  (0 <= r <= Z.of_nat (String.length text))%Z.
Proof.
  revert s inp'. induction inp as [|answer inp IH]; intros s inp' Hs; simpl;
    [discriminate|].
  destruct (PyStr.int answer) as [shift|]; [|now intros [= <- <-]].
  destruct (shift =? 0)%Z; [now intros [= <- <-]|].
  apply IH. lia.
Qed.

Section PromptFacts.

Variable ratio : string -> string -> Q.

(** What [ask_user_for_split] returns once a marker was found. *)
Lemma ask_user_for_split_shape
    (b : booking) (w w' : world) (name : option string) (rest key : string) :
  ask_user_for_split ratio b w = (Ok (name, Some rest, Some key), w') ->
  files w' = files w /\
  (name = Some key \/ truthy name = true) /\
  exists i,
    i <= String.length (PyStr.strip (Textblock b)) /\
    key = PyStr.strip (PyStr.take i (PyStr.strip (Textblock b))) /\
    rest = PyStr.strip (PyStr.drop i (PyStr.strip (Textblock b))).
Proof.
  unfold ask_user_for_split, bind, prompting, ret, input.
  set (text := PyStr.strip (Textblock b)).
  destruct (marker_loop text (stdin w)) as [[[[]|[marker idx]]|e] inp1] eqn:Em;
    simpl; try discriminate.
  destruct (marker_loop_found _ _ _ _ _ Em) as (_ & i & -> & Hi & _).
  destruct (shift_loop text _ inp1) as [[split|e] inp2] eqn:Es; simpl;
    try discriminate.
  assert (0 <= split <= Z.of_nat (String.length text))%Z as Hsplit.
  { eapply shift_loop_bounds; [|exact Es]. lia. }
  destruct (ask_user_select_declaration ratio _ _) as [[selected|e] w3] eqn:Esel;
    try discriminate.
  apply select_keeps_files in Esel. simpl in Esel.
  assert (exists j, j <= String.length text /\
            PyStr.strip (PyStr.take (Z.to_nat split) text) =
              PyStr.strip (PyStr.take j text) /\
            PyStr.strip (PyStr.drop (Z.to_nat split) text) =
              PyStr.strip (PyStr.drop j text)) as Hcut.
  { exists (Z.to_nat split). split; [lia | split; reflexivity]. }
  destruct (truthy selected) eqn:Et.
  - intros [= <- <- <- <-]. repeat split; auto.
  - destruct (stdin w3) as [|line inp4]; [discriminate|].
    destruct (PyStr.nonempty (PyStr.strip line)) eqn:En; simpl;
      intros [= <- <- <- <-]; repeat split; auto.
Qed.

(** X16: when the prompt returns a key and a rest, they are the two sides
    of one cut of the trimmed text block, each trimmed; the cut lies
    inside the text, so no negative index reaches the slices; the name is
    the key itself or a name that is not empty; the rule document is not
    touched by the prompt. *)
Theorem split_cuts_the_text
    (b : booking) (w w' : world) (name : option string) (rest key : string) :
  ask_user_for_split ratio b w = (Ok (name, Some rest, Some key), w') ->
  files w' = files w /\
  (name = Some key \/ truthy name = true) /\
  exists i,
    i <= String.length (PyStr.strip (Textblock b)) /\
    key = PyStr.strip (PyStr.take i (PyStr.strip (Textblock b))) /\
    rest = PyStr.strip (PyStr.drop i (PyStr.strip (Textblock b))).
Proof. apply ask_user_for_split_shape. Qed.

(** X17: an empty answer to the first question gives the record its whole
    trimmed text block as name and the empty description; one line of
    input is used and no rule is saved. *)
Theorem operator_abort_keeps_text
    (b : booking) (w : world) (rules : Json.dict) (answer : string)
    (rest : list string) :
  load_reference_db "split_rules.json" (files w) = Ok rules ->
  rule_labels rules b = false ->
  stdin w = answer :: rest ->
  PyStr.strip answer = EmptyString ->
  enrich_booking ratio true b w =
  (set_Beschreibung EmptyString (set_Name (PyStr.strip (Textblock b)) b),
   Ok tt, mkWorld (files w) rest).
Proof.
  intros Hload Hlabel Hin Hstrip.
  rewrite (enrich_booking_unlabeled ratio true b w rules Hload Hlabel).
  unfold prompt_booking, ask_user_for_split, bind, prompting, ret.
  rewrite Hin. simpl. now rewrite Hstrip.
Qed.

(** X18: a record that no rule labels, met in interactive mode when the
    input is used up, ends the run with [EOFError]; the records and the
    rule document stay as they are. *)
Theorem prompt_without_input_raises
    (b : booking) (bs : list booking) (w : world) (rules : Json.dict) :
  load_reference_db "split_rules.json" (files w) = Ok rules ->
  rule_labels rules b = false ->
  stdin w = [] ->
  enrich_bookings ratio (b :: bs) true w = (b :: bs, Raise EOFError, w).
Proof.
  intros Hload Hlabel Hin. simpl.
  rewrite (enrich_booking_unlabeled ratio true b w rules Hload Hlabel).
  unfold prompt_booking, ask_user_for_split, bind, prompting, ret.
  rewrite Hin. simpl. destruct w as [fs inp]. simpl in Hin. now subst inp.
Qed.

End PromptFacts.

Lemma split_cuts_the_text_witness :
  files (mkWorld ∅ []) = files (mkWorld ∅ ["zon"; "+3"; "x"; "Amazon"]) /\
  (Some "Amazon" = Some "AMAZON EU" \/ truthy (Some "Amazon") = true) /\
  exists i,
    i <= String.length (PyStr.strip (Textblock (debit_of "AMAZON EU SARL"))) /\
    "AMAZON EU" =
      PyStr.strip (PyStr.take i (PyStr.strip (Textblock (debit_of "AMAZON EU SARL")))) /\
    "SARL" =
      PyStr.strip (PyStr.drop i (PyStr.strip (Textblock (debit_of "AMAZON EU SARL")))).
Proof.
  apply (split_cuts_the_text positional (debit_of "AMAZON EU SARL")
           (mkWorld ∅ ["zon"; "+3"; "x"; "Amazon"]) (mkWorld ∅ [])).
  reflexivity.
Defined.

Lemma operator_abort_keeps_text_witness :
  enrich_booking positional true (debit_of "  REWE SAGT DANKE ")
    (mkWorld (store_of [("AMAZON", "Amazon")]) ["  "; "next"]) =
  (set_Beschreibung EmptyString
     (set_Name (PyStr.strip (Textblock (debit_of "  REWE SAGT DANKE ")))
        (debit_of "  REWE SAGT DANKE ")),
   Ok tt, mkWorld (store_of [("AMAZON", "Amazon")]) ["next"]).
Proof.
  apply (operator_abort_keeps_text positional (debit_of "  REWE SAGT DANKE ")
           (mkWorld (store_of [("AMAZON", "Amazon")]) ["  "; "next"])
           [("AMAZON", "Amazon")] "  " ["next"]); reflexivity.
Defined.

Lemma prompt_without_input_raises_witness :
  enrich_bookings positional
    (debit_of "REWE SAGT DANKE" :: [debit_of "AMAZON EU SARL"]) true
    (mkWorld (store_of [("AMAZON", "Amazon")]) []) =
  (debit_of "REWE SAGT DANKE" :: [debit_of "AMAZON EU SARL"], Raise EOFError,
   mkWorld (store_of [("AMAZON", "Amazon")]) []).
Proof.
  apply (prompt_without_input_raises positional (debit_of "REWE SAGT DANKE")
           [debit_of "AMAZON EU SARL"]
           (mkWorld (store_of [("AMAZON", "Amazon")]) [])
           [("AMAZON", "Amazon")]); reflexivity.
Defined.

(** ** More on the enricher *)

Lemma startswith_append (k c : string) : PyStr.startswith k (k +:+ c) = true.
Proof.
  induction k as [|a k IH]; simpl; [reflexivity|].
  now rewrite Ascii.eqb_refl, IH.
Qed.

Lemma contains_middle (a k c : string) : PyStr.contains k (a +:+ k +:+ c) = true.
Proof.
  induction a as [|x a IH].
  - simpl. apply startswith_contains, startswith_append.
  - change (String x a +:+ k +:+ c) with (String x (a +:+ k +:+ c)).
    simpl. rewrite IH. apply orb_true_r.
Qed.

Lemma rstrip_by_split (p : ascii -> bool) (s : string) :
  exists suf, s = PyStr.rstrip_by p s +:+ suf.
Proof.
  induction s as [|c s (suf & Hs)]; simpl; [now exists EmptyString|].
  destruct (PyStr.rstrip_by p s) as [|d r].
  - simpl in Hs. subst suf. destruct (p c).
    + now exists (String c s).
    + now exists s.
  - exists suf. change (String c (String d r) +:+ suf)
      with (String c (String d r +:+ suf)). now f_equal.
Qed.

(** The key that [ask_user_for_split] cuts from a text occurs in it. *)
Lemma contains_strip_take (i : nat) (text : string) :
  PyStr.contains (PyStr.strip (PyStr.take i text)) text = true.
Proof.
  unfold PyStr.strip, PyStr.lstrip, PyStr.rstrip.
  destruct (rstrip_by_split PyStr.isspace (PyStr.take i text)) as (suf & Hsuf).
  destruct (lstrip_by_split PyStr.isspace (PyStr.rstrip_by PyStr.isspace (PyStr.take i text)))
    as (pre & Hpre & _).
  set (key := PyStr.lstrip_by _ _) in *.
  pose proof (contains_middle pre key (suf +:+ PyStr.drop i text)) as H.
  rewrite <- !append_assoc in H.
  now rewrite <- Hpre, <- Hsuf, str_take_drop in H.
Qed.

Section EnricherMore.

Variable ratio : string -> string -> Q.

Lemma enrich_booking_labelled
    (interactive : bool) (b : booking) (w : world) (rules : Json.dict) :
  load_reference_db "split_rules.json" (files w) = Ok rules ->
  rule_labels rules b = true ->
  enrich_booking ratio interactive b w = (label_by rules b, Ok tt, w).
Proof.
  unfold enrich_booking, rule_labels, label_by. intros -> H.
  destruct (apply_split_rule _ rules) as [label rest]. simpl in H. now rewrite H.
Qed.

(** X19: records that the rules label need no operator: in either mode
    the enricher gives each of them the rule's name and description, reads
    no input and leaves the rule document alone. *)
Theorem matched_records_need_no_operator
    (bs : list booking) (interactive : bool) (w : world) (rules : Json.dict) :
  load_reference_db "split_rules.json" (files w) = Ok rules ->
  forallb (rule_labels rules) bs = true ->
  enrich_bookings ratio bs interactive w = (map (label_by rules) bs, Ok tt, w).
Proof.
  intros Hload. induction bs as [|b bs IH]; simpl; [reflexivity|].
  intros H. apply andb_prop in H as [Hb Hbs].
  rewrite (enrich_booking_labelled interactive b w rules Hload Hb).
  now rewrite (IH Hbs).
Qed.


Lemma prompt_booking_fields (b : booking) (w : world) :
  same_parsed_fields b (prompt_booking ratio b w).1.1.
Proof.
  unfold prompt_booking, same_parsed_fields.
  destruct (ask_user_for_split ratio b w) as [[[[name rest] key]|e] w']; simpl.
  - destruct (truthy name); simpl; [|easy].
    now destruct (save_reference _ _ _ w').
  - easy.
Qed.

Lemma enrich_booking_fields (interactive : bool) (b : booking) (w : world) :
  same_parsed_fields b (enrich_booking ratio interactive b w).1.1.
Proof.
  unfold enrich_booking.
  destruct (load_reference_db _ _) as [rules|e]; [|easy].
  destruct (apply_split_rule _ rules) as [label rest].
  destruct (truthy label); [easy|].
  destruct interactive; [apply prompt_booking_fields | easy].
Qed.

(** X21: the enricher returns as many records as it got, in their order,
    and writes only name and description: date, booking type, text block,
    amounts and source file of every record stay as they were, however the
    run ends. *)
Theorem enricher_keeps_parsed_fields
    (bs : list booking) (interactive : bool) (w : world) :
  Forall2 same_parsed_fields bs (enrich_bookings ratio bs interactive w).1.1.
Proof.
  revert w; induction bs as [|b bs IH]; intros w; simpl; [constructor|].
  pose proof (enrich_booking_fields interactive b w) as Hb.
  destruct (enrich_booking ratio interactive b w) as [[b' [[]|e]] w']; simpl in *.
  - specialize (IH w').
    destruct (enrich_bookings ratio bs interactive w') as [[bs' r] w'']; simpl in *.
    now constructor.
  - constructor; [exact Hb|]. clear. induction bs; constructor; easy.
Qed.

(** X22: with interactive mode disabled the enricher is a pure pass over
    the records: under a rule document that loads, it labels the records
    the rules label, leaves the others as they are, ends without error,
    and reads no input and writes no file. *)
Theorem batch_mode_is_silent (bs : list booking) (w : world) (rules : Json.dict) :
  load_reference_db "split_rules.json" (files w) = Ok rules ->
  enrich_bookings ratio bs false w =
  (map (fun b => if rule_labels rules b then label_by rules b else b) bs, Ok tt, w).
Proof.
  intros Hload. induction bs as [|b bs IH]; simpl; [reflexivity|].
  destruct (rule_labels rules b) eqn:E.
  - rewrite (enrich_booking_labelled false b w rules Hload E). now rewrite IH.
  - rewrite (enrich_booking_unlabeled ratio false b w rules Hload E). now rewrite IH.
Qed.

(** X23: a rule document that [json.load] refuses stops the work at
    once: the enricher raises [JSONDecodeError] at the first record and
    touches none, and [save_reference] raises it without opening the file
    for writing, so the document is never overwritten. *)
Theorem unreadable_rules_stop_the_run
    (b : booking) (bs : list booking) (interactive : bool) (w : world)
    (key value : utext) :
  load_reference_db "split_rules.json" (files w) = Raise JSONDecodeError ->
  enrich_bookings ratio (b :: bs) interactive w = (b :: bs, Raise JSONDecodeError, w) /\
  save_reference key value "split_rules.json" w = (Raise JSONDecodeError, w).
Proof.
  intros H. split.
  - simpl. unfold enrich_booking. now rewrite H.
  - unfold save_reference. now rewrite H.
Qed.

Lemma prompt_booking_source (name : string) (b : booking) (w : world) :
  prompt_booking ratio (set_Quelle name b) w =
  let '(b', r, w') := prompt_booking ratio b w in (set_Quelle name b', r, w').
Proof.
  unfold prompt_booking.
  change (ask_user_for_split ratio (set_Quelle name b) w)
    with (ask_user_for_split ratio b w).
  destruct (ask_user_for_split ratio b w) as [[[[n rest] key]|e] w']; simpl;
    [|reflexivity].
  destruct (truthy n); [|reflexivity].
  now destruct (save_reference _ _ _ w') as [r w''].
Qed.

Lemma enrich_booking_source
    (name : string) (interactive : bool) (b : booking) (w : world) :
  enrich_booking ratio interactive (set_Quelle name b) w =
  let '(b', r, w') := enrich_booking ratio interactive b w in
  (set_Quelle name b', r, w').
Proof.
  unfold enrich_booking. simpl.
  destruct (load_reference_db _ _) as [rules|e]; [|reflexivity].
  destruct (apply_split_rule _ rules) as [label rest].
  destruct (truthy label); [reflexivity|].
  destruct interactive; [apply prompt_booking_source | reflexivity].
Qed.

(** X24: tagging the records with their source file and enriching them
    commute: whichever comes first, as in the two branches of [main], the
    records, the outcome and the world are the same. *)
Theorem tagging_commutes_with_enrichment
    (name : string) (bs : list booking) (interactive : bool) (w : world) :
  enrich_bookings ratio (set_source name bs) interactive w =
  let '(bs', r, w') := enrich_bookings ratio bs interactive w in
  (set_source name bs', r, w').
Proof.
  revert w; induction bs as [|b bs IH]; intros w; simpl; [reflexivity|].
  rewrite enrich_booking_source.
  destruct (enrich_booking ratio interactive b w) as [[b' [[]|e]] w']; simpl.
  - fold (set_source name bs). rewrite IH.
    now destruct (enrich_bookings ratio bs interactive w') as [[bs' r] w''].
  - reflexivity.
Qed.

End EnricherMore.

Lemma matched_records_need_no_operator_witness :
  enrich_bookings positional
    [debit_of "AMAZON EU SARL"; debit_of "PAYPAL *SHOP 123"] true
    (mkWorld (store_of [("AMAZON", "Amazon"); ("PAYPAL", "PayPal")]) ["unused"]) =
  (map (label_by [("AMAZON", "Amazon"); ("PAYPAL", "PayPal")])
     [debit_of "AMAZON EU SARL"; debit_of "PAYPAL *SHOP 123"],
   Ok tt,
   mkWorld (store_of [("AMAZON", "Amazon"); ("PAYPAL", "PayPal")]) ["unused"]).
Proof.
  apply (matched_records_need_no_operator positional
           [debit_of "AMAZON EU SARL"; debit_of "PAYPAL *SHOP 123"] true
           (mkWorld (store_of [("AMAZON", "Amazon"); ("PAYPAL", "PayPal")]) ["unused"])
           [("AMAZON", "Amazon"); ("PAYPAL", "PayPal")]); reflexivity.
Defined.


Lemma batch_mode_is_silent_witness :
  enrich_bookings positional
    [debit_of "AMAZON EU SARL"; debit_of "REWE SAGT DANKE"] false
    (mkWorld (store_of [("AMAZON", "Amazon")]) ["unused"]) =
  (map (fun b => if rule_labels [("AMAZON", "Amazon")] b
                 then label_by [("AMAZON", "Amazon")] b else b)
     [debit_of "AMAZON EU SARL"; debit_of "REWE SAGT DANKE"],
   Ok tt, mkWorld (store_of [("AMAZON", "Amazon")]) ["unused"]).
Proof.
  apply (batch_mode_is_silent positional
           [debit_of "AMAZON EU SARL"; debit_of "REWE SAGT DANKE"]
           (mkWorld (store_of [("AMAZON", "Amazon")]) ["unused"])
           [("AMAZON", "Amazon")]).
  reflexivity.
Defined.

Lemma unreadable_rules_stop_the_run_witness :
  enrich_bookings positional
    (debit_of "AMAZON EU SARL" :: [debit_of "REWE SAGT DANKE"]) true
    (mkWorld {[ "split_rules.json" := "{ AMAZON: Amazon }" ]} ["AMAZON"]) =
  (debit_of "AMAZON EU SARL" :: [debit_of "REWE SAGT DANKE"], Raise JSONDecodeError,
   mkWorld {[ "split_rules.json" := "{ AMAZON: Amazon }" ]} ["AMAZON"]) /\
  save_reference (plain "AMAZON") (plain "Amazon") "split_rules.json"
    (mkWorld {[ "split_rules.json" := "{ AMAZON: Amazon }" ]} ["AMAZON"]) =
  (Raise JSONDecodeError,
   mkWorld {[ "split_rules.json" := "{ AMAZON: Amazon }" ]} ["AMAZON"]).
Proof.
  apply (unreadable_rules_stop_the_run positional (debit_of "AMAZON EU SARL")
           [debit_of "REWE SAGT DANKE"] true
           (mkWorld {[ "split_rules.json" := "{ AMAZON: Amazon }" ]} ["AMAZON"])
           (plain "AMAZON") (plain "Amazon")).
  reflexivity.
Defined.

(** ** More on the amount of a header line *)

(** A match hands to its continuation a rest that is no longer than the
    text it started on. *)
Lemma run_consumes {A : Type} (r : Re.regex) :
  forall (k : string -> option A) (s : string) (x : A),
    Re.run r k s = Some x ->
    exists s', k s' = Some x /\ String.length s' <= String.length s.
Proof.
  induction r as [|p|r1 IH1 r2 IH2|r1 IH1 r2 IH2|r1 IH1]; intros k s x; simpl.
  - intros H. exists s. split; [exact H | lia].
  - destruct s as [|c s]; [discriminate|]. destruct (p c); [|discriminate].
    intros H. exists s. split; [exact H | simpl; lia].
  - intros H. destruct (IH1 _ _ _ H) as (s1 & H1 & L1).
    destruct (IH2 _ _ _ H1) as (s2 & H2 & L2). exists s2. split; [exact H2 | lia].
  - destruct (Re.run r1 k s) as [y|] eqn:E.
    + intros [= <-]. exact (IH1 _ _ _ E).
    + apply IH2.
  - generalize (String.length s) at 1. intros n. revert s.
    induction n as [|n IHn]; intros s.
    + intros H. exists s. split; [exact H | lia].
    + destruct (Re.run r1 _ s) as [y|] eqn:E.
      * intros [= <-]. destruct (IH1 _ _ _ E) as (s1 & H1 & L1).
        destruct (String.length s1 <? String.length s); [|discriminate].
        destruct (IHn _ H1) as (s2 & H2 & L2). exists s2. split; [exact H2 | lia].
      * intros H. exists s. split; [exact H | lia].
Qed.

(** A match of the amount pattern starts with a minus sign or a digit and
    is not empty. *)
Lemma amount_match_head (s : string) (n : nat) :
  Re.match_len AMOUNT_RE s = Some n ->
  0 < n /\
  exists c s0, s = String c s0 /\ (c = "-"%char \/ PyStr.isdecimal c = true).
Proof.
  unfold Re.match_len, AMOUNT_RE, Re.opt, Re.repeat.
  set (k0 := fun s' : string => Some (String.length s - String.length s')).
  set (tail := Re.Seq (Re.Star _) _).
  change (Re.run (Re.Seq (Re.Alt (Re.chr "-") Re.Eps)
                    (Re.Seq (Re.Seq (Re.times 1 Re.digit) (Re.upto (3 - 1) Re.digit)) tail))
            k0 s)
    with (match Re.run (Re.chr "-")
                  (Re.run (Re.Seq (Re.Seq (Re.times 1 Re.digit)
                                     (Re.upto (3 - 1) Re.digit)) tail) k0) s with
          | Some x => Some x
          | None => Re.run (Re.Seq (Re.Seq (Re.times 1 Re.digit)
                                      (Re.upto (3 - 1) Re.digit)) tail) k0 s
          end).
  assert (forall t m,
            Re.run (Re.Seq (Re.Seq (Re.times 1 Re.digit)
                              (Re.upto (3 - 1) Re.digit)) tail) k0 t = Some m ->
            exists c t0 s',
              t = String c t0 /\ PyStr.isdecimal c = true /\
              k0 s' = Some m /\ String.length s' <= String.length t0) as Hdigits.
  { intros [|c t0] m; [discriminate|].
    change (Re.run (Re.Seq (Re.Seq (Re.times 1 Re.digit) (Re.upto (3 - 1) Re.digit)) tail)
              k0 (String c t0))
      with (if PyStr.isdecimal c
            then Re.run (Re.upto (3 - 1) Re.digit) (Re.run tail k0) t0
            else None).
    destruct (PyStr.isdecimal c) eqn:Ec; [|discriminate].
    intros H. destruct (run_consumes _ _ _ _ H) as (s1 & H1 & L1).
    destruct (run_consumes _ _ _ _ H1) as (s2 & H2 & L2).
    exists c, t0, s2. repeat split; auto. lia. }
  destruct (Re.run (Re.chr "-") _ s) as [y|] eqn:E.
  - intros [= ->]. destruct s as [|c s0]; [discriminate E|].
    change (Re.run (Re.chr "-") ?k (String c s0))
      with (if Ascii.eqb "-" c then k s0 else None) in E.
    destruct (Ascii.eqb "-" c) eqn:Ec; [|discriminate E].
    apply Ascii.eqb_eq in Ec. subst c.
    destruct (Hdigits _ _ E) as (d & t0 & s' & -> & _ & Hk & L).
    unfold k0 in Hk. injection Hk as <-. simpl in *. split; [lia|].
    exists "-"%char, (String d t0). auto.
  - intros H. destruct (Hdigits _ _ H) as (c & t0 & s' & -> & Hc & Hk & L).
    unfold k0 in Hk. injection Hk as <-. simpl in *. split; [lia|].
    exists c, t0. auto.
Qed.

Lemma findall_amount_heads (s : string) (skip : nat) :
  Forall amount_head (Re.findall_from AMOUNT_RE skip s).
Proof.
  revert skip; induction s as [|c s IH]; intros [|k]; simpl.
  - destruct (Re.match_len AMOUNT_RE EmptyString) as [n|] eqn:E; [|constructor].
    destruct (amount_match_head _ _ E) as (_ & c & s0 & [=] & _).
  - constructor.
  - destruct (Re.match_len AMOUNT_RE (String c s)) as [n|] eqn:E; [|apply IH].
    constructor; [|apply IH].
    destruct (amount_match_head _ _ E) as (Hn & d & s0 & [= <- <-] & Hd).
    destruct n as [|n]; [lia|]. simpl. now exists c, (PyStr.take n s).
  - apply IH.
Qed.

Lemma last_amount_head (a : string) (amounts : list string) :
  Forall amount_head (a :: amounts) -> amount_head (last_amount (a :: amounts)).
Proof.
  unfold last_amount. revert a. induction amounts as [|b amounts IH]; intros a H.
  - now inversion H.
  - inversion H; subst. now apply IH.
Qed.

Lemma normalize_amount_nonempty (m : string) :
  amount_head m -> PyStr.nonempty (normalize_amount m) = true.
Proof.
  intros (c & m0 & -> & Hc). unfold normalize_amount. cbv [PyStr.nonempty].
  simpl PyStr.replace at 2.
  assert (Ascii.eqb c "." = false /\ Ascii.eqb c "," = false) as [E1 E2].
  { destruct Hc as [->|Hc]; [now split|].
    split; apply Ascii.eqb_neq; intros ->; discriminate Hc. }
  rewrite E1. simpl. now rewrite E2.
Qed.

(** X25: a header line fills one amount field exactly when the amount
    pattern matches in its remainder: without a match both fields stay
    empty; with one, the last match goes, normalized and not empty, to the
    debit when it holds a minus sign and to the credit otherwise, and the
    other field stays empty. *)
Theorem header_amount_fills_one_field (header : string) :
  is_header header = true ->
  exists b,
    parse_lines [header] = [b] /\
    match Re.findall AMOUNT_RE (PyStr.strip (PyStr.drop 10 (PyStr.rstrip header))) with
    | [] => Soll b = EmptyString /\ Haben b = EmptyString
    | a :: amounts =>
        if has "-" (last_amount (a :: amounts))
        then Soll b = normalize_amount (last_amount (a :: amounts)) /\
             PyStr.nonempty (Soll b) = true /\ Haben b = EmptyString
        else Haben b = normalize_amount (last_amount (a :: amounts)) /\
             PyStr.nonempty (Haben b) = true /\ Soll b = EmptyString
    end.
Proof.
  intros Hh. exists (open_booking (PyStr.rstrip header)). split.
  - unfold parse_lines. simpl. now rewrite (parse_line_header _ _ Hh).
  - unfold open_booking. cbn [Soll Haben].
    pose proof (findall_amount_heads
                  (PyStr.strip (PyStr.drop 10 (PyStr.rstrip header))) 0) as Hheads.
    fold (Re.findall AMOUNT_RE (PyStr.strip (PyStr.drop 10 (PyStr.rstrip header))))
      in Hheads.
    destruct (Re.findall AMOUNT_RE _) as [|a amounts]; [now split|].
    pose proof (normalize_amount_nonempty _ (last_amount_head _ _ Hheads)) as Hne.
    fold (has "-" (last_amount (a :: amounts))).
    destruct (has "-" (last_amount (a :: amounts))); auto.
Qed.

Lemma header_amount_fills_one_field_witness :
  exists b,
    parse_lines ["01.01.2024 Lastschrift 1.234,56 -12,00"] = [b] /\
    match Re.findall AMOUNT_RE
            (PyStr.strip (PyStr.drop 10
               (PyStr.rstrip "01.01.2024 Lastschrift 1.234,56 -12,00"))) with
    | [] => Soll b = EmptyString /\ Haben b = EmptyString
    | a :: amounts =>
        if has "-" (last_amount (a :: amounts))
        then Soll b = normalize_amount (last_amount (a :: amounts)) /\
             PyStr.nonempty (Soll b) = true /\ Haben b = EmptyString
        else Haben b = normalize_amount (last_amount (a :: amounts)) /\
             PyStr.nonempty (Haben b) = true /\ Soll b = EmptyString
    end.
Proof.
  apply (header_amount_fills_one_field "01.01.2024 Lastschrift 1.234,56 -12,00").
  reflexivity.
Defined.
